(** * Adams-Bashforth / Adams-Moulton predictor-corrector steppers

    A shallow embedding of [adams_12_steps.c], [adams_16_steps.c] and
    [adams_20_steps.c].  The three C files contain the same four routines and
    differ only in the literal coefficient tables; the embedding is written
    once over a [table] and instantiated three times.

    Modelling choices.
    - [double] is IEEE-754 binary64, every C operation rounded on its own
      (Rocq's primitive floats), so results are bit-exact for a target that
      evaluates [double] expressions in [double].
    - [int] counters are integers in [Z]; the only place where an [int] can
      leave its range is [return i+1] of the corrector, written [int_wrap].
    - arrays are lists, read with the total lookup [!!!] and written with
      [<[i:=v]>]; the theorems assume the dimension the C comments require.
    - the user function [f] is a Rocq function; each routine that calls it
      also returns the list of points at which it called it, in call order. *)

From Stdlib Require Import ZArith QArith Bool Floats Lia.
From stdpp Require Import base list.

Set Warnings "-inexact-float".
Local Open Scope Z_scope.

(** ** Machine types *)

Abbreviation double := float.

#[global] Instance double_inhabited : Inhabited double := populate 0%float.

Definition INT_MAX : Z := 2147483647.
Definition INT_MIN : Z := -2147483648.

(** The value of an [int] expression whose mathematical result is [z], on a
    32-bit two's-complement target (ISO C leaves the overflow undefined). *)
Definition int_wrap (z : Z) : Z := (z + 2 ^ 31) mod 2 ^ 32 - 2 ^ 31.

(** ** Coefficient tables *)

Record table := Table {
  bashforth : list double;
  moulton : list double;
  divisor : double
}.

(** [#define STEPS sizeof(bashforth)/sizeof(bashforth[0])] *)
Definition STEPS (T : table) : Z := Z.of_nat (length (bashforth T)).

(** The literals of the three source files. *)

Definition bashforth_12 : list double := [
    4527766399.0; (-19433810163.0); 61633227185.0; (-135579356757.0);
    214139355366.0; (-247741639374.0); 211103573298.0; (-131365867290.0);
    58189107627.0; (-17410248271.0); 3158642445.0; (-262747265.0) ]%float.

Definition moulton_12 : list double := [
    262747265.0; 1374799219.0; (-2092490673.0); 3828828885.0;
    (-5519460582.0); 6043521486.0; (-4963166514.0); 3007739418.0;
    (-1305971115.0); 384709327.0; (-68928781.0); 5675265.0 ]%float.

Definition divisor_12 : double := (1.0 / 958003200.0)%float.

Definition adams_12 : table :=
  {| bashforth := bashforth_12; moulton := moulton_12; divisor := divisor_12 |}.

Definition bashforth_12_literals : list Z := [
    4527766399; (-19433810163); 61633227185; (-135579356757); 214139355366;
    (-247741639374); 211103573298; (-131365867290); 58189107627;
    (-17410248271); 3158642445; (-262747265) ]%Z.

Definition moulton_12_literals : list Z := [
    262747265; 1374799219; (-2092490673); 3828828885; (-5519460582);
    6043521486; (-4963166514); 3007739418; (-1305971115); 384709327;
    (-68928781); 5675265 ]%Z.

Definition divisor_12_denominator : Z := 958003200.

Definition bashforth_16 : list double := [
    362555126427073.0; (-2161567671248849.0); 9622096909515337.0;
    (-30607373860520569.0); 72558117072259733.0; (-131963191940828581.0);
    187463140112902893.0; (-210020588912321949.0); 186087544263596643.0;
    (-129930094104237331.0); 70724351582843483.0; (-29417910911251819.0);
    9038571752734087.0; (-1934443196892599.0); 257650275915823.0;
    (-16088129229375.0) ]%float.

Definition moulton_16 : list double := [
    16088129229375.0; 105145058757073.0; (-230992163723849.0);
    612744541065337.0; (-1326978663058069.0); 2285168598349733.0;
    (-3129453071993581.0); 3414941728852893.0; (-2966365730265699.0);
    2039345879546643.0; (-1096355235402331.0); 451403108933483.0;
    (-137515713789319.0); 29219384284087.0; (-3867689367599.0);
    240208245823.0 ]%float.

Definition divisor_16 : double := (1.0 / 62768369664000.0)%float.

Definition adams_16 : table :=
  {| bashforth := bashforth_16; moulton := moulton_16; divisor := divisor_16 |}.

Definition bashforth_16_literals : list Z := [
    362555126427073; (-2161567671248849); 9622096909515337;
    (-30607373860520569); 72558117072259733; (-131963191940828581);
    187463140112902893; (-210020588912321949); 186087544263596643;
    (-129930094104237331); 70724351582843483; (-29417910911251819);
    9038571752734087; (-1934443196892599); 257650275915823;
    (-16088129229375) ]%Z.

Definition moulton_16_literals : list Z := [
    16088129229375; 105145058757073; (-230992163723849); 612744541065337;
    (-1326978663058069); 2285168598349733; (-3129453071993581);
    3414941728852893; (-2966365730265699); 2039345879546643;
    (-1096355235402331); 451403108933483; (-137515713789319); 29219384284087;
    (-3867689367599); 240208245823 ]%Z.

Definition divisor_16_denominator : Z := 62768369664000.

Definition bashforth_20 : list double := [
    691668239157222107697.0; (-5292843584961252933125.0);
    30349492858024727686755.0; (-126346544855927856134295.0);
    399537307669842150996468.0; (-991168450545135070835076.0);
    1971629028083798845750380.0; (-3191065388846318679544380.0);
    4241614331208149947151790.0; (-4654326468801478894406214.0);
    4222756879776354065593786.0; (-3161821089800186539248210.0);
    1943018818982002395655620.0; (-970350191086531368649620.0);
    387739787034699092364924.0; (-121059601023985433003532.0);
    28462032496476316665705.0; (-4740335757093710713245.0);
    498669220956647866875.0; (-24919383499187492303.0) ]%float.

Definition moulton_20 : list double := [
    24919383499187492303.0; 193280569173472261637.0;
    (-558160720115629395555.0); 1941395668950986461335.0;
    (-5612131802364455926260.0); 13187185898439270330756.0;
    (-25293146116627869170796.0); 39878419226784442421820.0;
    (-51970649453670274135470.0); 56154678684618739939910.0;
    (-50320851025594566473146.0); 37297227252822858381906.0;
    (-22726350407538133839300.0); 11268210124987992327060.0;
    (-4474886658024166985340.0); 1389665263296211699212.0;
    (-325187970422032795497.0); 53935307402575440285.0;
    (-5652892248087175675.0); 281550972898020815.0 ]%float.

Definition divisor_20 : double := (1.0 / 102181884343418880000.0)%float.

Definition adams_20 : table :=
  {| bashforth := bashforth_20; moulton := moulton_20; divisor := divisor_20 |}.

Definition bashforth_20_literals : list Z := [
    691668239157222107697; (-5292843584961252933125);
    30349492858024727686755; (-126346544855927856134295);
    399537307669842150996468; (-991168450545135070835076);
    1971629028083798845750380; (-3191065388846318679544380);
    4241614331208149947151790; (-4654326468801478894406214);
    4222756879776354065593786; (-3161821089800186539248210);
    1943018818982002395655620; (-970350191086531368649620);
    387739787034699092364924; (-121059601023985433003532);
    28462032496476316665705; (-4740335757093710713245);
    498669220956647866875; (-24919383499187492303) ]%Z.

Definition moulton_20_literals : list Z := [
    24919383499187492303; 193280569173472261637; (-558160720115629395555);
    1941395668950986461335; (-5612131802364455926260);
    13187185898439270330756; (-25293146116627869170796);
    39878419226784442421820; (-51970649453670274135470);
    56154678684618739939910; (-50320851025594566473146);
    37297227252822858381906; (-22726350407538133839300);
    11268210124987992327060; (-4474886658024166985340);
    1389665263296211699212; (-325187970422032795497); 53935307402575440285;
    (-5652892248087175675); 281550972898020815 ]%Z.

Definition divisor_20_denominator : Z := 102181884343418880000.

Definition supplied : list table := [adams_12; adams_16; adams_20].

(** ** Convergence predicate *)

(** [static int hasConverged(double y0, double y1, double epsilon)];
    the C result 1/0 is the boolean. *)
Definition hasConverged (y0 y1 epsilon : double) : bool :=
  let epsilon :=
    if (1.0 <? abs y0)%float && (1.0 <? abs y1)%float
    then (epsilon * abs y1)%float else epsilon in
  (abs (y0 - y1) <? epsilon)%float.

(** ** The four routines, over a table *)

Record corrected := Corrected {
  c_ret : Z;                          (* the [int] returned *)
  c_y1 : double;                      (* [y[1]] on return *)
  c_rounds : nat;                     (* loop bodies executed *)
  c_evals : list (double * double)    (* calls of [f], oldest first *)
}.

Record stepped := Stepped {
  s_ret : Z;                          (* the [int] returned *)
  s_y1 : double;                      (* [y[1]] on return *)
  s_y_bashforth : double;             (* [*y_bashforth] on return *)
  s_f_history : list double;          (* [f_history[]] on return *)
  s_evals : list (double * double)    (* calls of [f], oldest first *)
}.

Section Routines.
Variable T : table.
Variable f : double -> double -> double.

(** [for (i = 0; i < STEPS; i++, n--) delta += bashforth[i] * f_history[n];]
    with [todo] the number of rounds left, [STEPS - i]. *)
Fixpoint bashforth_loop (f_history : list double) (todo : nat) (i n : Z)
    (delta : double) : double :=
  match todo with
  | O => delta
  | S todo =>
      bashforth_loop f_history todo (i + 1) (n - 1)
        (delta + (bashforth T !!! Z.to_nat i) * (f_history !!! Z.to_nat n))%float
  end.

Definition Adams_Bashforth_Steps (y h : double) (f_history : list double)
    : double :=
  let delta := bashforth_loop f_history (Z.to_nat (STEPS T - 0)) 0 (STEPS T - 1) 0%float in
  (y + h * divisor T * delta)%float.

(** [for (i = 1; i < STEPS; i++, n--) delta += moulton[i] * f_history[n];] *)
Fixpoint moulton_loop (f_history : list double) (todo : nat) (i n : Z)
    (delta : double) : double :=
  match todo with
  | O => delta
  | S todo =>
      moulton_loop f_history todo (i + 1) (n - 1)
        (delta + (moulton T !!! Z.to_nat i) * (f_history !!! Z.to_nat n))%float
  end.

(** The iteration loop of the corrector, [todo = iterations - i] rounds
    left.  It returns [i] at loop exit, [y[1]], the number of bodies run
    and the calls of [f]. *)
Fixpoint corrector_loop (y0 x h delta tolerance : double) (todo : nat)
    (i : Z) (y1 : double) (rounds : nat) (evals : list (double * double))
    : Z * double * nat * list (double * double) :=
  match todo with
  | O => (i, y1, rounds, evals)
  | S todo =>
      let old_estimate := y1 in
      let fxy := f x y1 in
      let evals := evals ++ [(x, y1)] in
      let y1 := (y0 + h * divisor T * (moulton T !!! 0%nat * fxy + delta))%float in
      if hasConverged old_estimate y1 tolerance
      then (i, y1, S rounds, evals)
      else corrector_loop y0 x h delta tolerance todo (i + 1) y1 (S rounds) evals
  end.

(** [int Adams_Moulton_{11,15,19}_Steps(f, y, x, h, f_history, tolerance,
    iterations)], with [y[0]] and [y[1]] passed as [y0] and [y1]. *)
Definition Adams_Moulton_Steps (y0 y1 x h : double) (f_history : list double)
    (tolerance : double) (iterations : Z) : corrected :=
  let delta :=
    moulton_loop f_history (Z.to_nat (STEPS T - 1)) 1 (STEPS T - 2) 0%float in
  let '(i, y1, rounds, evals) :=
    corrector_loop y0 x h delta tolerance (Z.to_nat (iterations - 0)) 0 y1 O [] in
  Corrected (int_wrap (i + 1)) y1 rounds evals.

(** [for (i = 0; i < STEPS - 1; i++) f_history[i] = f_history[i+1];] *)
Fixpoint shift_loop (todo : nat) (i : Z) (f_history : list double)
    : list double :=
  match todo with
  | O => f_history
  | S todo =>
      shift_loop todo (i + 1)
        (<[Z.to_nat i := f_history !!! Z.to_nat (i + 1)]> f_history)
  end.

(** [int Adams_{12,16,20}_Steps(f, y, x0, h, f_history, y_bashforth,
    tolerance, iterations)]; [y[1]] is written before it is read, so only
    [y[0]] is an input. *)
Definition Adams_Steps (y0 x0 h : double) (f_history : list double)
    (tolerance : double) (iterations : Z) : stepped :=
  let f_history := <[Z.to_nat (STEPS T - 1) := f x0 y0]> f_history in
  let y_bashforth := Adams_Bashforth_Steps y0 h f_history in
  let f_history := shift_loop (Z.to_nat (STEPS T - 1 - 0)) 0 f_history in
  let y1 := y_bashforth in
  let c := Adams_Moulton_Steps y0 y1 (x0 + h)%float h f_history tolerance iterations in
  Stepped (c_ret c) (c_y1 c) y_bashforth f_history ((x0, y0) :: c_evals c).

(** [for (i = 0; i < STEPS-1; x += h, i++) f_history[i] = f(x,y[i]);] *)
Fixpoint build_loop (y : list double) (h : double) (todo : nat) (i : Z)
    (x : double) (f_history : list double) (evals : list (double * double))
    : list double * list (double * double) :=
  match todo with
  | O => (f_history, evals)
  | S todo =>
      build_loop y h todo (i + 1) (x + h)%float
        (<[Z.to_nat i := f x (y !!! Z.to_nat i)]> f_history)
        (evals ++ [(x, y !!! Z.to_nat i)])
  end.

(** [void Adams_{12,16,20}_Build_History(f, f_history, y, x, h)]: the
    array on return and the calls of [f]. *)
Definition Adams_Build_History (f_history y : list double) (x h : double)
    : list double * list (double * double) :=
  build_loop y h (Z.to_nat (STEPS T - 1 - 0)) 0 x f_history [].

End Routines.

(** The routines under their C names. *)
Definition Adams_12_Steps := Adams_Steps adams_12.
Definition Adams_Bashforth_12_Steps := Adams_Bashforth_Steps adams_12.
Definition Adams_Moulton_11_Steps := Adams_Moulton_Steps adams_12.
Definition Adams_12_Build_History := Adams_Build_History adams_12.
Definition Adams_16_Steps := Adams_Steps adams_16.
Definition Adams_Bashforth_16_Steps := Adams_Bashforth_Steps adams_16.
Definition Adams_Moulton_15_Steps := Adams_Moulton_Steps adams_16.
Definition Adams_16_Build_History := Adams_Build_History adams_16.
Definition Adams_20_Steps := Adams_Steps adams_20.
Definition Adams_Bashforth_20_Steps := Adams_Bashforth_Steps adams_20.
Definition Adams_Moulton_19_Steps := Adams_Moulton_Steps adams_20.
Definition Adams_20_Build_History := Adams_Build_History adams_20.

(** ** Reference formulas

    The closed forms the routines are compared with.  They are written from
    the formulas of the method, with natural-number indices, and are not
    used by the routines above. *)

(** The order [k] of a table. *)
Definition order (T : table) : nat := length (bashforth T).

(** [int] to [double], as the C conversion does it (round to nearest). *)
Definition double_of_Z (z : Z) : double :=
  SF2Prim (binary_normalize prec emax z 0 false).

(** A sum of [double] terms accumulated from 0.0 in the order of the
    index list. *)
Definition dsum (term : nat -> double) (js : list nat) : double :=
  fold_left (fun acc j => (acc + term j)%float) js 0%float.

(** [bashforth[j] * f_history[k-1-j]], summed for [j = 0 .. k-1]. *)
Definition bashforth_sum (T : table) (f_history : list double) : double :=
  dsum (fun j => (bashforth T !!! j * f_history !!! (order T - 1 - j)%nat)%float)
       (seq 0 (order T)).

(** [moulton[j] * f_history[k-1-j]], summed for [j = 1 .. k-1]. *)
Definition moulton_sum (T : table) (f_history : list double) : double :=
  dsum (fun j => (moulton T !!! j * f_history !!! (order T - 1 - j)%nat)%float)
       (seq 1 (order T - 1)).

Section Corrector_reference.
Variable T : table.
Variable f : double -> double -> double.
Variables y0 x h delta tolerance : double.

(** One application of the corrector formula to an estimate. *)
Definition picard (y1 : double) : double :=
  (y0 + h * divisor T * (moulton T !!! 0%nat * f x y1 + delta))%float.

(** The estimate after [n] applications, from the initial estimate. *)
Definition estimate (y1 : double) (n : nat) : double := Nat.iter n picard y1.

(** The convergence test made at the end of round [m] (1-indexed). *)
Definition converged_at (y1 : double) (m : nat) : bool :=
  hasConverged (estimate y1 (m - 1)) (estimate y1 m) tolerance.

(** The rounds run under a budget of [N]: up to the first round whose test
    succeeds, all [N] when none does. *)
Definition rounds_within (y1 : double) (N : nat) : nat :=
  match find (converged_at y1) (seq 1 N) with
  | Some m => m
  | None => N
  end.

(** Round [m] is the first whose test succeeds. *)
Definition first_success (y1 : double) (m : nat) : Prop :=
  converged_at y1 m = true /\
  forall j, (1 <= j < m)%nat -> converged_at y1 j = false.

(** No test succeeds in rounds [1 .. N]. *)
Definition never_within (y1 : double) (N : nat) : Prop :=
  forall j, (1 <= j <= N)%nat -> converged_at y1 j = false.
End Corrector_reference.

(** The abscissa the history builder passes to [f] in round [i]: [x] after
    [i] executions of [x += h]. *)
Definition running_abscissa (x h : double) (i : nat) : double :=
  Nat.iter i (fun x => (x + h)%float) x.

(** The abscissa [x + i*h] computed in one go. *)
Definition direct_abscissa (x h : double) (i : nat) : double :=
  (x + double_of_Z (Z.of_nat i) * h)%float.

(** The lesser of two doubles, not-a-number when either is (the [minimum]
    operation of IEEE 754). *)
Definition dmin (a b : double) : double :=
  if is_nan a then a else if is_nan b then b
  else if (a <=? b)%float then a else b.

(** The bound of the convergence rule: relative to [|y1|] when both
    magnitudes exceed 1, absolute otherwise. *)
Definition effective_bound (y0 y1 epsilon : double) : double :=
  if (1.0 <? dmin (abs y0) (abs y1))%float
  then (abs y1 * epsilon)%float else epsilon.

(** Sum of a list of integer literals. *)
Definition Zsum (l : list Z) : Z := fold_right Z.add 0 l.

(** A history of [k] equal samples. *)
Definition constant_history (T : table) (c : double) : list double :=
  replicate (order T) c.


(** ** Classes of doubles, on their specification *)

(** Zero or a finite non-zero number. *)
Definition SFfinite (s : spec_float) : bool :=
  match s with
  | S754_zero _ | S754_finite _ _ _ => true
  | _ => false
  end.

(** Strictly above zero: a positive finite number or plus infinity. *)
Definition SFpositive (s : spec_float) : bool :=
  match s with
  | S754_finite false _ _ | S754_infinity false => true
  | _ => false
  end.

(** * Proofs *)

(** ** The summation loops *)

Section Loops.
Variable T : table.

Lemma bashforth_loop_fold (fh : list double) (todo : nat) :
  forall (i n : Z) (delta : double), 0 <= i ->
  bashforth_loop T fh todo i n delta =
  fold_left (fun acc j =>
      (acc + bashforth T !!! j * fh !!! Z.to_nat (n + i - Z.of_nat j))%float)
    (seq (Z.to_nat i) todo) delta.
Proof.
  induction todo as [|todo IH]; intros i n delta Hi; simpl; [reflexivity|].
  rewrite IH by lia.
  replace (n - 1 + (i + 1)) with (n + i) by lia.
  replace (Z.to_nat (i + 1)) with (S (Z.to_nat i)) by lia.
  replace (n + i - Z.of_nat (Z.to_nat i)) with n by lia.
  reflexivity.
Qed.

Lemma moulton_loop_fold (fh : list double) (todo : nat) :
  forall (i n : Z) (delta : double), 0 <= i ->
  moulton_loop T fh todo i n delta =
  fold_left (fun acc j =>
      (acc + moulton T !!! j * fh !!! Z.to_nat (n + i - Z.of_nat j))%float)
    (seq (Z.to_nat i) todo) delta.
Proof.
  induction todo as [|todo IH]; intros i n delta Hi; simpl; [reflexivity|].
  rewrite IH by lia.
  replace (n - 1 + (i + 1)) with (n + i) by lia.
  replace (Z.to_nat (i + 1)) with (S (Z.to_nat i)) by lia.
  replace (n + i - Z.of_nat (Z.to_nat i)) with n by lia.
  reflexivity.
Qed.

Lemma fold_left_ext_in {A B} (g g' : A -> B -> A) (l : list B) :
  (forall a b, In b l -> g a b = g' a b) ->
  forall a, fold_left g l a = fold_left g' l a.
Proof.
  induction l as [|b l IH]; intros H a; simpl; [reflexivity|].
  rewrite H by (left; reflexivity). apply IH. intros; apply H; right; assumption.
Qed.

Lemma bashforth_loop_sum (fh : list double) :
  bashforth_loop T fh (Z.to_nat (STEPS T - 0)) 0 (STEPS T - 1) 0%float =
  bashforth_sum T fh.
Proof.
  rewrite bashforth_loop_fold by lia.
  unfold bashforth_sum, dsum, STEPS, order.
  replace (Z.to_nat (Z.of_nat (length (bashforth T)) - 0)) with (length (bashforth T)) by lia.
  apply fold_left_ext_in. intros a j _. do 3 f_equal. lia.
Qed.

Lemma moulton_loop_sum (fh : list double) :
  moulton_loop T fh (Z.to_nat (STEPS T - 1)) 1 (STEPS T - 2) 0%float =
  moulton_sum T fh.
Proof.
  rewrite moulton_loop_fold by lia.
  unfold moulton_sum, dsum, STEPS, order.
  replace (Z.to_nat (Z.of_nat (length (bashforth T)) - 1)) with (length (bashforth T) - 1)%nat by lia.
  apply fold_left_ext_in. intros a j _. do 3 f_equal. lia.
Qed.
End Loops.

(** The predictor through its reference sum. *)
Lemma predictor_weighted_sum_aux (T : table) (y h : double)
    (f_history : list double) :
  Adams_Bashforth_Steps T y h f_history =
  (y + h * divisor T * bashforth_sum T f_history)%float.
Proof.
  unfold Adams_Bashforth_Steps. rewrite bashforth_loop_sum. reflexivity.
Qed.

(** Componentwise equality of tuples, arithmetic sides by [lia]. *)
Ltac tuple_eq :=
  repeat match goal with |- (_, _) = (_, _) => f_equal end;
  try reflexivity; try lia.

(** ** Searching a range for the first hit *)

Lemma find_seq_Some (p : nat -> bool) (N : nat) :
  forall a m, find p (seq a N) = Some m ->
  (a <= m < a + N)%nat /\ p m = true /\
  forall j, (a <= j < m)%nat -> p j = false.
Proof.
  induction N as [|N IH]; intros a m; simpl; [discriminate|].
  destruct (p a) eqn:Ha.
  - intros [= <-]. repeat split; [lia | lia | assumption | intros; lia].
  - intros Hm. destruct (IH _ _ Hm) as (Hr & Hp & Hlt).
    repeat split; [lia | lia | assumption |].
    intros j Hj. destruct (Nat.eq_dec j a) as [->|]; [assumption|].
    apply Hlt. lia.
Qed.

Lemma find_seq_None (p : nat -> bool) (N : nat) :
  forall a, find p (seq a N) = None ->
  forall j, (a <= j < a + N)%nat -> p j = false.
Proof.
  induction N as [|N IH]; intros a; simpl; [intros; lia|].
  destruct (p a) eqn:Ha; [discriminate|].
  intros Hn j Hj. destruct (Nat.eq_dec j a) as [->|]; [assumption|].
  apply (IH _ Hn). lia.
Qed.

Lemma find_all_false {A} (p : A -> bool) (l : list A) :
  (forall a, In a l -> p a = false) -> find p l = None.
Proof.
  induction l as [|a l IH]; intros H; simpl; [reflexivity|].
  rewrite H by (left; reflexivity). apply IH. intros; apply H; right; assumption.
Qed.

Lemma find_shift (p q : nat -> bool) (N : nat) :
  forall a, (forall j, (a <= j)%nat -> p (S j) = q j) ->
  find p (seq (S a) N) = option_map S (find q (seq a N)).
Proof.
  induction N as [|N IH]; intros a H; simpl; [reflexivity|].
  rewrite H by lia. destruct (q a); [reflexivity|].
  apply IH. intros; apply H; lia.
Qed.

(** ** The corrector loop against the reference iteration *)

Section Corrector_loop.
Variable T : table.
Variable f : double -> double -> double.
Variables y0 x h delta tolerance : double.

Let est := estimate T f y0 x h delta.
Let conv := converged_at T f y0 x h delta tolerance.

Lemma estimate_shift (y1 : double) (n : nat) :
  est (picard T f y0 x h delta y1) n = est y1 (S n).
Proof. unfold est, estimate. rewrite Nat.iter_succ_r. reflexivity. Qed.

Lemma converged_at_shift (y1 : double) (m : nat) :
  (1 <= m)%nat -> conv y1 (S m) = conv (picard T f y0 x h delta y1) m.
Proof.
  intros Hm. unfold conv, converged_at.
  fold est. rewrite !estimate_shift.
  replace (S m - 1)%nat with (S (m - 1)) by lia. reflexivity.
Qed.

Lemma corrector_loop_spec (todo : nat) :
  forall (i : Z) (y1 : double) (rounds : nat) (evals : list (double * double)),
  corrector_loop T f y0 x h delta tolerance todo i y1 rounds evals =
  match find (conv y1) (seq 1 todo) with
  | Some m =>
      (i + Z.of_nat m - 1, est y1 m, (rounds + m)%nat,
       evals ++ map (fun j => (x, est y1 j)) (seq 0 m))
  | None =>
      (i + Z.of_nat todo, est y1 todo, (rounds + todo)%nat,
       evals ++ map (fun j => (x, est y1 j)) (seq 0 todo))
  end.
Proof.
  induction todo as [|todo IH]; intros i y1 rounds evals.
  - simpl. rewrite Z.add_0_r, Nat.add_0_r, app_nil_r. reflexivity.
  - cbn [corrector_loop seq find].
    change (conv y1 1) with
      (hasConverged y1 (picard T f y0 x h delta y1) tolerance).
    change (y0 + h * divisor T * (moulton T !!! 0%nat * f x y1 + delta))%float
      with (picard T f y0 x h delta y1).
    destruct (hasConverged y1 (picard T f y0 x h delta y1) tolerance).
    + cbn. tuple_eq.
    + rewrite IH.
      rewrite (find_shift (conv y1) (conv (picard T f y0 x h delta y1)))
        by (intros; apply converged_at_shift; assumption).
      destruct (find (conv (picard T f y0 x h delta y1)) (seq 1 todo)) as [m|];
        cbn [option_map]; rewrite estimate_shift;
        rewrite <- app_assoc; cbn [app seq map];
        rewrite <- seq_shift, map_map;
        tuple_eq; do 2 f_equal; apply map_ext; intros j;
        rewrite estimate_shift; reflexivity.
Qed.
End Corrector_loop.

Lemma int_wrap_in_range (z : Z) : INT_MIN <= z <= INT_MAX -> int_wrap z = z.
Proof.
  unfold INT_MIN, INT_MAX, int_wrap. intros Hz.
  rewrite Z.mod_small by lia. lia.
Qed.

Section Corrector.
Variable T : table.
Variable f : double -> double -> double.
Variables y0 y1 x h : double.
Variable f_history : list double.
Variable tolerance : double.
Variable iterations : Z.

Let d := moulton_sum T f_history.
Let est := estimate T f y0 x h d y1.
Let conv := converged_at T f y0 x h d tolerance y1.
Let c := Adams_Moulton_Steps T f y0 y1 x h f_history tolerance iterations.

(** The corrector in closed form: the first successful round decides. *)
Lemma Adams_Moulton_Steps_spec :
  c = match find conv (seq 1 (Z.to_nat iterations)) with
      | Some m =>
          Corrected (int_wrap (Z.of_nat m)) (est m) m
            (map (fun j => (x, est j)) (seq 0 m))
      | None =>
          Corrected (int_wrap (Z.of_nat (Z.to_nat iterations) + 1))
            (est (Z.to_nat iterations)) (Z.to_nat iterations)
            (map (fun j => (x, est j)) (seq 0 (Z.to_nat iterations)))
      end.
Proof.
  unfold c, Adams_Moulton_Steps.
  rewrite moulton_loop_sum, corrector_loop_spec, Z.sub_0_r.
  fold d. fold conv. fold est.
  destruct (find conv (seq 1 (Z.to_nat iterations))) as [m|]; cbn;
    f_equal; f_equal; lia.
Qed.

Lemma corrector_rounds :
  c_rounds c = rounds_within T f y0 x h d tolerance y1 (Z.to_nat iterations).
Proof.
  rewrite Adams_Moulton_Steps_spec. unfold rounds_within. fold conv.
  destruct (find conv (seq 1 (Z.to_nat iterations))); reflexivity.
Qed.

Lemma corrector_rounds_le : (c_rounds c <= Z.to_nat iterations)%nat.
Proof.
  rewrite Adams_Moulton_Steps_spec.
  destruct (find conv (seq 1 (Z.to_nat iterations))) as [m|] eqn:Hfind; cbn.
  - apply find_seq_Some in Hfind. lia.
  - lia.
Qed.

Lemma corrector_estimate : c_y1 c = est (c_rounds c).
Proof.
  rewrite Adams_Moulton_Steps_spec.
  destruct (find conv (seq 1 (Z.to_nat iterations))); reflexivity.
Qed.

Lemma corrector_evals :
  c_evals c = map (fun j => (x, est j)) (seq 0 (c_rounds c)).
Proof.
  rewrite Adams_Moulton_Steps_spec.
  destruct (find conv (seq 1 (Z.to_nat iterations))); reflexivity.
Qed.

Lemma corrector_stops_on_success :
  (c_rounds c < Z.to_nat iterations)%nat -> conv (c_rounds c) = true.
Proof.
  rewrite Adams_Moulton_Steps_spec.
  destruct (find conv (seq 1 (Z.to_nat iterations))) as [m|] eqn:Hfind; cbn.
  - intros _. apply find_seq_Some in Hfind. tauto.
  - lia.
Qed.

Lemma corrector_runs_on_failure (j : nat) :
  (1 <= j < c_rounds c)%nat -> conv j = false.
Proof.
  rewrite Adams_Moulton_Steps_spec.
  destruct (find conv (seq 1 (Z.to_nat iterations))) as [m|] eqn:Hfind; cbn.
  - intros Hj. apply find_seq_Some in Hfind. apply Hfind. lia.
  - intros Hj. apply (find_seq_None _ _ _ Hfind). lia.
Qed.

(** The returned count when round [m] is the first to succeed. *)
Lemma corrector_ret_success (m : nat) :
  (1 <= m <= Z.to_nat iterations)%nat ->
  first_success T f y0 x h d tolerance y1 m ->
  c_ret c = int_wrap (Z.of_nat m) /\ c_rounds c = m.
Proof.
  intros Hm [Hyes Hno]. fold conv in Hyes, Hno.
  rewrite Adams_Moulton_Steps_spec.
  destruct (find conv (seq 1 (Z.to_nat iterations))) as [m'|] eqn:Hfind; cbn.
  - apply find_seq_Some in Hfind. destruct Hfind as (Hr & Hyes' & Hno').
    assert (m' = m) as ->; [|split; reflexivity].
    destruct (Nat.lt_trichotomy m' m) as [Hlt|[Heq|Hgt]]; [|assumption|].
    + rewrite Hno in Hyes' by lia. discriminate.
    + rewrite Hno' in Hyes by lia. discriminate.
  - rewrite (find_seq_None _ _ _ Hfind m) in Hyes by lia. discriminate.
Qed.

(** The returned count when no round succeeds. *)
Lemma corrector_ret_failure :
  never_within T f y0 x h d tolerance y1 (Z.to_nat iterations) ->
  c_ret c = int_wrap (Z.of_nat (Z.to_nat iterations) + 1) /\
  c_rounds c = Z.to_nat iterations.
Proof.
  intros Hno. fold conv in Hno.
  rewrite Adams_Moulton_Steps_spec.
  destruct (find conv (seq 1 (Z.to_nat iterations))) as [m|] eqn:Hfind; cbn.
  - apply find_seq_Some in Hfind. destruct Hfind as (Hr & Hyes & _).
    rewrite Hno in Hyes by lia. discriminate.
  - split; reflexivity.
Qed.

Lemma corrector_success_or_failure :
  (exists m, (1 <= m <= Z.to_nat iterations)%nat /\
             first_success T f y0 x h d tolerance y1 m) \/
  never_within T f y0 x h d tolerance y1 (Z.to_nat iterations).
Proof.
  destruct (find conv (seq 1 (Z.to_nat iterations))) as [m|] eqn:Hfind.
  - left. exists m. apply find_seq_Some in Hfind.
    destruct Hfind as (Hr & Hyes & Hno).
    split; [lia|]. split; [assumption|]. intros j Hj. apply Hno. lia.
  - right. intros j Hj. apply (find_seq_None _ _ _ Hfind). lia.
Qed.
End Corrector.

(** ** Facts on binary64 arithmetic, through its specification *)

Lemma Prim2SF_zero : Prim2SF 0%float = S754_zero false.
Proof. reflexivity. Qed.

Lemma Prim2SF_one : Prim2SF 1%float = S754_finite false 4503599627370496 (-52).
Proof. reflexivity. Qed.

Lemma SFmul_comm (a b : spec_float) : SFmul prec emax a b = SFmul prec emax b a.
Proof.
  destruct a as [sa|sa| |sa ma ea], b as [sb|sb| |sb mb eb]; cbn;
    rewrite ?(xorb_comm sa sb), ?(Pos.mul_comm ma mb), ?(Z.add_comm ea eb);
    reflexivity.
Qed.

Lemma double_mul_comm (a b : double) : (a * b = b * a)%float.
Proof.
  apply Prim2SF_inj. rewrite !FloatAxioms.mul_spec. apply SFmul_comm.
Qed.

(** A magnitude is never below a zero tolerance, scaled or not. *)
Lemma abs_ltb_zero (u : double) : (abs u <? 0)%float = false.
Proof.
  rewrite FloatAxioms.ltb_spec, FloatAxioms.abs_spec.
  destruct (Prim2SF u) as [[]|[]| |[] m e]; reflexivity.
Qed.

Lemma abs_ltb_zero_scaled (u b : double) : (abs u <? 0 * abs b)%float = false.
Proof.
  rewrite FloatAxioms.ltb_spec, FloatAxioms.mul_spec, !FloatAxioms.abs_spec.
  destruct (Prim2SF u) as [[]|[]| |[] m e], (Prim2SF b) as [[]|[]| |[] m' e'];
    reflexivity.
Qed.

Lemma hasConverged_zero_tolerance (y0 y1 : double) :
  hasConverged y0 y1 0%float = false.
Proof.
  unfold hasConverged.
  destruct ((1 <? abs y0)%float && (1 <? abs y1)%float).
  - apply abs_ltb_zero_scaled.
  - apply abs_ltb_zero.
Qed.

(** *** The order on doubles *)

Ltac compare_cases :=
  change (Pos.compare_cont Eq) with Pos.compare in *;
  repeat match goal with
  | |- context [Z.compare ?a ?b] => destruct (Z.compare_spec a b)
  | |- context [Pos.compare ?a ?b] => destruct (Pos.compare_spec a b)
  end;
  try discriminate; try reflexivity; try (intros; exfalso; lia);
  try (intros; discriminate).

Lemma SFleb_false_ltb (a b : spec_float) :
  a <> S754_nan -> b <> S754_nan ->
  SFleb a b = false -> SFltb b a = true.
Proof.
  unfold SFleb, SFltb.
  destruct a as [sa|sa| |sa ma ea], b as [sb|sb| |sb mb eb]; cbn;
    try destruct sa; try destruct sb; try discriminate; try reflexivity;
    try congruence; intros _ _; compare_cases.
Qed.

(** Anything at least as large as a number above a positive finite one is
    above it too. *)
Lemma SFltb_leb_trans (m : positive) (e : Z) (a b : spec_float) :
  SFltb (S754_finite false m e) a = true -> SFleb a b = true ->
  SFltb (S754_finite false m e) b = true.
Proof.
  unfold SFleb, SFltb.
  destruct a as [sa|sa| |sa ma ea], b as [sb|sb| |sb mb eb];
    cbn [SFcompare];
    try destruct sa; try destruct sb; try discriminate; try reflexivity;
    compare_cases.
Qed.

Lemma SFltb_one_leb (a b : spec_float) :
  SFltb (Prim2SF 1%float) a = true -> SFleb a b = true ->
  SFltb (Prim2SF 1%float) b = true.
Proof. rewrite Prim2SF_one. apply SFltb_leb_trans. Qed.

Lemma SFltb_leb (a b : spec_float) : SFltb a b = true -> SFleb a b = true.
Proof.
  unfold SFleb, SFltb. destruct (SFcompare a b) as [[]|]; congruence.
Qed.

Lemma SFltb_nan_r (a : spec_float) : SFltb a S754_nan = false.
Proof. destruct a; reflexivity. Qed.

Lemma SFeqb_not_ltb (a b : spec_float) : SFeqb a b = true -> SFltb a b = false.
Proof.
  unfold SFeqb, SFltb. destruct (SFcompare a b) as [[]|]; congruence.
Qed.

Lemma SFcompare_refl (a : spec_float) :
  a <> S754_nan -> SFcompare a a = Some Eq.
Proof.
  destruct a as [s|s| |s m e]; cbn [SFcompare]; try congruence.
  - destruct s; reflexivity.
  - intros _. rewrite Z.compare_refl.
    change (Pos.compare_cont Eq m m) with (Pos.compare m m).
    rewrite Pos.compare_refl. destruct s; reflexivity.
Qed.

Lemma is_nan_spec (a : double) : is_nan a = true <-> Prim2SF a = S754_nan.
Proof.
  unfold is_nan. rewrite FloatAxioms.eqb_spec. unfold SFeqb. split.
  - intros H. destruct (Prim2SF a) as [s|s| |s m e] eqn:E; [| |reflexivity|];
      rewrite SFcompare_refl in H by discriminate; discriminate.
  - intros ->. reflexivity.
Qed.

(** The two magnitude tests of [hasConverged] against the lesser magnitude. *)
Lemma both_above_one (a b : double) :
  (1 <? a)%float && (1 <? b)%float = (1 <? dmin a b)%float.
Proof.
  unfold dmin.
  destruct (is_nan a) eqn:Ha.
  { apply is_nan_spec in Ha.
    assert ((1 <? a)%float = false) as -> by (rewrite FloatAxioms.ltb_spec, Ha; reflexivity).
    reflexivity. }
  destruct (is_nan b) eqn:Hb.
  { apply is_nan_spec in Hb.
    assert ((1 <? b)%float = false) as -> by (rewrite FloatAxioms.ltb_spec, Hb; reflexivity).
    apply andb_false_r. }
  assert (Prim2SF a <> S754_nan) as Ha' by (rewrite <- is_nan_spec; congruence).
  assert (Prim2SF b <> S754_nan) as Hb' by (rewrite <- is_nan_spec; congruence).
  destruct (a <=? b)%float eqn:Hab; rewrite FloatAxioms.leb_spec in Hab.
  - destruct (1 <? a)%float eqn:H1a; [|reflexivity].
    rewrite FloatAxioms.ltb_spec in H1a. cbn [andb].
    rewrite FloatAxioms.ltb_spec. apply (SFltb_one_leb _ _ H1a Hab).
  - apply SFleb_false_ltb in Hab; [|assumption..].
    destruct (1 <? b)%float eqn:H1b; [|apply andb_false_r].
    rewrite FloatAxioms.ltb_spec in H1b. rewrite andb_true_r, FloatAxioms.ltb_spec.
    apply (SFltb_one_leb _ _ H1b (SFltb_leb _ _ Hab)).
Qed.

Lemma hasConverged_effective_bound (y0 y1 epsilon : double) :
  hasConverged y0 y1 epsilon =
  (abs (y0 - y1) <? effective_bound y0 y1 epsilon)%float.
Proof.
  unfold hasConverged, effective_bound.
  rewrite both_above_one, (double_mul_comm epsilon). reflexivity.
Qed.

(** ** The array loops *)

Lemma shift_loop_length (todo : nat) :
  forall (i : Z) (fh : list double), length (shift_loop todo i fh) = length fh.
Proof.
  induction todo as [|todo IH]; intros i fh; simpl; [reflexivity|].
  rewrite IH. apply length_insert.
Qed.

(** Slots [i .. i+todo-1] receive their right neighbour, the others stay. *)
Lemma shift_loop_lookup (todo : nat) :
  forall (i : Z) (fh : list double) (j : nat),
  0 <= i -> (Z.to_nat i + todo < length fh)%nat ->
  shift_loop todo i fh !! j =
  if decide (Z.to_nat i <= j < Z.to_nat i + todo)%nat
  then fh !! S j else fh !! j.
Proof.
  induction todo as [|todo IH]; intros i fh j Hi Hlen; simpl.
  - case_decide; [lia | reflexivity].
  - rewrite IH by (rewrite ?length_insert; lia).
    replace (Z.to_nat (i + 1)) with (S (Z.to_nat i)) by lia.
    destruct (decide (j = Z.to_nat i)) as [->|Hne].
    + rewrite decide_False by lia. rewrite decide_True by lia.
      rewrite list_lookup_insert_eq by lia.
      symmetry. apply list_lookup_lookup_total_lt. lia.
    + repeat case_decide; try lia; apply list_lookup_insert_ne; lia.
Qed.

Lemma running_abscissa_S (x h : double) (n : nat) :
  running_abscissa (x + h)%float h n = running_abscissa x h (S n).
Proof. unfold running_abscissa. rewrite Nat.iter_succ_r. reflexivity. Qed.

Section Build.
Variable f : double -> double -> double.
Variable y : list double.
Variable h : double.

Lemma build_loop_length (todo : nat) :
  forall i x fh evals,
  length (build_loop f y h todo i x fh evals).1 = length fh.
Proof.
  induction todo as [|todo IH]; intros i x fh evals; simpl; [reflexivity|].
  rewrite IH. apply length_insert.
Qed.

(** Slots [i .. i+todo-1] receive [f] at the running abscissa, the others
    stay. *)
Lemma build_loop_lookup (todo : nat) :
  forall (i : Z) (x : double) (fh : list double) evals (j : nat),
  0 <= i -> (Z.to_nat i + todo <= length fh)%nat ->
  (build_loop f y h todo i x fh evals).1 !! j =
  if decide (Z.to_nat i <= j < Z.to_nat i + todo)%nat
  then Some (f (running_abscissa x h (j - Z.to_nat i)) (y !!! j))
  else fh !! j.
Proof.
  induction todo as [|todo IH]; intros i x fh evals j Hi Hlen; simpl.
  - case_decide; [lia | reflexivity].
  - rewrite IH by (rewrite ?length_insert; lia).
    replace (Z.to_nat (i + 1)) with (S (Z.to_nat i)) by lia.
    destruct (decide (j = Z.to_nat i)) as [->|Hne].
    + rewrite decide_False by lia. rewrite decide_True by lia.
      rewrite list_lookup_insert_eq by lia.
      rewrite Nat.sub_diag. reflexivity.
    + repeat case_decide; try lia.
      * rewrite running_abscissa_S. do 3 f_equal. lia.
      * apply list_lookup_insert_ne; lia.
Qed.

Lemma build_loop_evals (todo : nat) :
  forall (i : Z) (x : double) (fh : list double) evals,
  0 <= i ->
  (build_loop f y h todo i x fh evals).2 =
  evals ++ map (fun r => (running_abscissa x h r, y !!! (Z.to_nat i + r)%nat))
               (seq 0 todo).
Proof.
  induction todo as [|todo IH]; intros i x fh evals Hi; simpl.
  - rewrite app_nil_r. reflexivity.
  - rewrite IH by lia. rewrite <- app_assoc. cbn [app]. do 2 f_equal.
    + rewrite Nat.add_0_r. reflexivity.
    + rewrite <- seq_shift, map_map. apply map_ext. intros r.
      rewrite running_abscissa_S. do 2 f_equal. lia.
Qed.
End Build.

(** * The specification's claims *)

Lemma supplied_order (T : table) :
  In T supplied -> order T = 12%nat \/ order T = 16%nat \/ order T = 20%nat.
Proof.
  intros [<-|[<-|[<-|[]]]]; [left | right; left | right; right]; reflexivity.
Qed.

Lemma STEPS_order (T : table) : STEPS T = Z.of_nat (order T).
Proof. reflexivity. Qed.

(** Two optional doubles with different encodings are different. *)
Ltac float_neq :=
  let H := fresh in
  intros H;
  apply (f_equal (fun o : option double =>
           match o with Some v => Prim2SF v | None => S754_nan end)) in H;
  vm_compute in H; discriminate.

(** ** The predictor *)

(** C6.  The predictor returns [y + h * divisor * S], where [S] accumulates
    [bashforth[j] * f_history[k-1-j]] from 0.0 for [j = 0, 1, .., k-1] in that
    order, so [bashforth[0]] meets the newest sample.  It takes no function
    to call, no tolerance and no budget: one pass of arithmetic. *)
Theorem predictor_weighted_sum (T : table) (y h : double)
    (f_history : list double) :
  Adams_Bashforth_Steps T y h f_history =
  (y + h * divisor T * bashforth_sum T f_history)%float.
Proof.
  unfold Adams_Bashforth_Steps. rewrite bashforth_loop_sum. reflexivity.
Qed.

(** The sum of order 12 written out on a symbolic history. *)
Example bashforth_sum_12_unfolded (a0 a1 a2 a3 a4 a5 a6 a7 a8 a9 a10 a11 : double) :
  bashforth_sum adams_12 [a0; a1; a2; a3; a4; a5; a6; a7; a8; a9; a10; a11] =
  (0 + 4527766399 * a11 + -19433810163 * a10 + 61633227185 * a9
     + -135579356757 * a8 + 214139355366 * a7 + -247741639374 * a6
     + 211103573298 * a5 + -131365867290 * a4 + 58189107627 * a3
     + -17410248271 * a2 + 3158642445 * a1 + -262747265 * a0)%float.
Proof. reflexivity. Qed.

(** ** The corrector *)

(** C4.  The corrector works with one [delta], the sum of
    [moulton[j] * f_history[k-1-j]] for [j = 1 .. k-1] ([moulton[1]] with
    the newest sample [f_history[k-2]]).  Every round replaces the estimate
    [e] by [y[0] + h * divisor * (moulton[0] * f(x, e) + delta)] with that
    same [delta], calling [f] once at [(x, e)]; the rounds end with the
    first one whose test [hasConverged(previous, new, tolerance)] holds, or
    with the budget. *)
Theorem corrector_fixed_point_iteration (T : table)
    (f : double -> double -> double) (y0 y1 x h : double)
    (f_history : list double) (tolerance : double) (iterations : Z) :
  let delta := moulton_sum T f_history in
  let est := estimate T f y0 x h delta y1 in
  let conv := converged_at T f y0 x h delta tolerance y1 in
  let c := Adams_Moulton_Steps T f y0 y1 x h f_history tolerance iterations in
  c_rounds c = rounds_within T f y0 x h delta tolerance y1 (Z.to_nat iterations) /\
  c_y1 c = est (c_rounds c) /\
  c_evals c = map (fun j => (x, est j)) (seq 0 (c_rounds c)) /\
  (forall j, est (S j) =
     (y0 + h * divisor T * (moulton T !!! 0%nat * f x (est j) + delta))%float) /\
  (forall j, conv (S j) = hasConverged (est j) (est (S j)) tolerance) /\
  ((c_rounds c < Z.to_nat iterations)%nat -> conv (c_rounds c) = true) /\
  (forall j, (1 <= j < c_rounds c)%nat -> conv j = false).
Proof.
  cbv zeta. split; [apply corrector_rounds|].
  split; [apply corrector_estimate|].
  split; [apply corrector_evals|].
  split; [reflexivity|].
  split; [intros j; unfold converged_at; rewrite Nat.sub_succ, Nat.sub_0_r; reflexivity|].
  split; [apply corrector_stops_on_success | apply corrector_runs_on_failure].
Qed.

(** C7.  With a budget of 0 the corrector returns 1. *)
Theorem corrector_zero_budget (T : table) (f : double -> double -> double)
    (y0 y1 x h : double) (f_history : list double) (tolerance : double) :
  c_ret (Adams_Moulton_Steps T f y0 y1 x h f_history tolerance 0) = 1.
Proof. reflexivity. Qed.

(** With a budget of 0 no round runs: [y[1]] keeps the caller's estimate and
    [f] is not called. *)
Lemma corrector_zero_budget_idle (T : table) (f : double -> double -> double)
    (y0 y1 x h : double) (f_history : list double) (tolerance : double) :
  let c := Adams_Moulton_Steps T f y0 y1 x h f_history tolerance 0 in
  c_rounds c = 0%nat /\ c_y1 c = y1 /\ c_evals c = [].
Proof. repeat split. Qed.

(** C5, as amended.  For a budget [1 <= N < INT_MAX]: when round [m <= N]
    is the first whose test succeeds the corrector returns [m], the number
    of rounds it ran; it returns more than [N] exactly when none of the [N]
    rounds succeeds, and then it returns [N + 1]; the result is always a
    count in [1 .. N+1]. *)
Theorem corrector_return_value (T : table) (f : double -> double -> double)
    (y0 y1 x h : double) (f_history : list double) (tolerance : double)
    (N : Z) :
  1 <= N < INT_MAX ->
  let delta := moulton_sum T f_history in
  let c := Adams_Moulton_Steps T f y0 y1 x h f_history tolerance N in
  (forall m, (1 <= m <= Z.to_nat N)%nat ->
     first_success T f y0 x h delta tolerance y1 m ->
     c_ret c = Z.of_nat m /\ c_rounds c = m) /\
  (N < c_ret c <-> never_within T f y0 x h delta tolerance y1 (Z.to_nat N)) /\
  (never_within T f y0 x h delta tolerance y1 (Z.to_nat N) ->
     c_ret c = N + 1 /\ c_rounds c = Z.to_nat N) /\
  1 <= c_ret c <= N + 1.
Proof.
  unfold INT_MAX. intros HN. cbv zeta.
  assert (Hsucc : forall m, (1 <= m <= Z.to_nat N)%nat ->
            first_success T f y0 x h (moulton_sum T f_history) tolerance y1 m ->
            c_ret (Adams_Moulton_Steps T f y0 y1 x h f_history tolerance N)
              = Z.of_nat m /\
            c_rounds (Adams_Moulton_Steps T f y0 y1 x h f_history tolerance N)
              = m).
  { intros m Hm Hfirst.
    destruct (corrector_ret_success T f y0 y1 x h f_history tolerance N m Hm Hfirst)
      as [-> ->].
    split; [|reflexivity]. apply int_wrap_in_range. unfold INT_MIN, INT_MAX. lia. }
  assert (Hfail : never_within T f y0 x h (moulton_sum T f_history) tolerance y1
                    (Z.to_nat N) ->
            c_ret (Adams_Moulton_Steps T f y0 y1 x h f_history tolerance N)
              = N + 1 /\
            c_rounds (Adams_Moulton_Steps T f y0 y1 x h f_history tolerance N)
              = Z.to_nat N).
  { intros Hnever.
    destruct (corrector_ret_failure T f y0 y1 x h f_history tolerance N Hnever)
      as [-> ->].
    split; [|reflexivity]. rewrite Z2Nat.id by lia.
    apply int_wrap_in_range. unfold INT_MIN, INT_MAX. lia. }
  split; [exact Hsucc|]. split; [|split; [exact Hfail|]].
  - split.
    + intros Hgt.
      destruct (corrector_success_or_failure T f y0 y1 x h f_history tolerance N)
        as [(m & Hm & Hfirst)|Hnever]; [|assumption].
      destruct (Hsucc m Hm Hfirst) as [Hret _]. lia.
    + intros Hnever. destruct (Hfail Hnever) as [Hret _]. lia.
  - destruct (corrector_success_or_failure T f y0 y1 x h f_history tolerance N)
      as [(m & Hm & Hfirst)|Hnever].
    + destruct (Hsucc m Hm Hfirst) as [Hret _]. lia.
    + destruct (Hfail Hnever) as [Hret _]. lia.
Qed.

Lemma corrector_return_value_witness :
  1 <= 10 < INT_MAX /\
  1 <= c_ret (Adams_Moulton_11_Steps (fun _ y => y) 1 1.01 0.01 0.01
                (constant_history adams_12 1) 1e-12 10) <= 10 + 1.
Proof.
  assert (H : 1 <= 10 < INT_MAX) by (unfold INT_MAX; lia).
  split; [exact H|].
  exact (proj2 (proj2 (proj2
    (corrector_return_value adams_12 (fun _ y => y) 1 1.01 0.01 0.01
       (constant_history adams_12 1) 1e-12 10 H)))).
Defined.

(** C5 fails at the largest budget: with [iterations = INT_MAX] and a
    tolerance of 0.0 no round succeeds, all [INT_MAX] rounds run, and
    [i + 1] leaves the range of [int]: the value returned is [INT_MIN], not
    [INT_MAX + 1], and it does not exceed the budget. *)
Lemma corrector_return_value_counterexample :
  never_within adams_12 (fun _ y => y) 1 0.01 0.01
    (moulton_sum adams_12 (constant_history adams_12 1)) 0 1.01
    (Z.to_nat 2147483647) /\
  c_ret (Adams_Moulton_11_Steps (fun _ y => y) 1 1.01 0.01 0.01
           (constant_history adams_12 1) 0 2147483647) = -2147483648 /\
  ~ 2147483647 <
    c_ret (Adams_Moulton_11_Steps (fun _ y => y) 1 1.01 0.01 0.01
             (constant_history adams_12 1) 0 2147483647).
Proof.
  assert (Hnever : never_within adams_12 (fun _ y => y) 1 0.01 0.01
            (moulton_sum adams_12 (constant_history adams_12 1)) 0 1.01
            (Z.to_nat 2147483647)).
  { intros j _. apply hasConverged_zero_tolerance. }
  assert (Hret : c_ret (Adams_Moulton_11_Steps (fun _ y => y) 1 1.01 0.01 0.01
             (constant_history adams_12 1) 0 2147483647) = -2147483648).
  { unfold Adams_Moulton_11_Steps.
    rewrite (proj1 (corrector_ret_failure _ _ _ _ _ _ _ _ _ Hnever)).
    rewrite Z2Nat.id by lia. reflexivity. }
  split; [exact Hnever|]. split; [exact Hret|]. rewrite Hret. lia.
Qed.

(** C9.  Under a budget [N >= 0] the corrector calls [f] once in each round
    it runs and in no other place, hence at most [N] times, and not at all
    under a budget [<= 0]; a call of the step driver adds one call, at
    [(x0, y[0])], before them: at most [1 + N] calls, whether or not the
    rounds converge. *)
Theorem evaluation_budget (T : table) (f : double -> double -> double)
    (y0 y1 x h : double) (f_history : list double) (tolerance : double)
    (N : Z) :
  0 <= N ->
  let c := Adams_Moulton_Steps T f y0 y1 x h f_history tolerance N in
  let s := Adams_Steps T f y0 x h f_history tolerance N in
  length (c_evals c) = c_rounds c /\
  Z.of_nat (length (c_evals c)) <= N /\
  (forall N', N' <= 0 ->
     c_evals (Adams_Moulton_Steps T f y0 y1 x h f_history tolerance N') = []) /\
  (exists rest, s_evals s = (x, y0) :: rest /\
                Z.of_nat (length rest) <= N) /\
  Z.of_nat (length (s_evals s)) <= 1 + N.
Proof.
  intros HN. cbv zeta.
  assert (Hlen : forall y0 y1 x h fh,
            length (c_evals (Adams_Moulton_Steps T f y0 y1 x h fh tolerance N)) =
            c_rounds (Adams_Moulton_Steps T f y0 y1 x h fh tolerance N)).
  { intros. rewrite corrector_evals, length_map, length_seq. reflexivity. }
  assert (Hle : forall y0 y1 x h fh,
            Z.of_nat (length (c_evals
              (Adams_Moulton_Steps T f y0 y1 x h fh tolerance N))) <= N).
  { intros y0' y1' x' h' fh. rewrite Hlen.
    pose proof (corrector_rounds_le T f y0' y1' x' h' fh tolerance N). lia. }
  split; [apply Hlen|]. split; [apply Hle|]. split; [|split].
  - intros N' HN'. rewrite corrector_evals.
    pose proof (corrector_rounds_le T f y0 y1 x h f_history tolerance N') as Hr.
    replace (Z.to_nat N') with 0%nat in Hr by lia.
    apply Nat.le_0_r in Hr. rewrite Hr. reflexivity.
  - eexists. split; [reflexivity|]. apply Hle.
  - cbn [Adams_Steps s_evals length]. rewrite Nat2Z.inj_succ.
    pose proof (Hle y0 (Adams_Bashforth_Steps T y0 h
      (<[Z.to_nat (STEPS T - 1):=f x y0]> f_history)) (x + h)%float h
      (shift_loop (Z.to_nat (STEPS T - 1 - 0)) 0
         (<[Z.to_nat (STEPS T - 1):=f x y0]> f_history))). lia.
Qed.

Lemma evaluation_budget_witness :
  0 <= 10 /\
  Z.of_nat (length (s_evals (Adams_12_Steps (fun _ y => y) 1 0 0.01
    (constant_history adams_12 1) 1e-12 10))) <= 1 + 10.
Proof.
  assert (H : 0 <= 10) by lia.
  split; [exact H|].
  exact (proj2 (proj2 (proj2 (proj2
    (evaluation_budget adams_12 (fun _ y => y) 1 1 0 0.01
       (constant_history adams_12 1) 1e-12 10 H))))).
Defined.

(** ** The step driver *)

Section Step_driver.
Variable T : table.
Variable f : double -> double -> double.

(** The history on return: the fresh sample in slot [k-1], then slots
    [0 .. k-2] taken from their right neighbours. *)
Lemma Adams_Steps_history (y0 x0 h : double) (H : list double)
    (tolerance : double) (iterations : Z) (j : nat) :
  (2 <= order T <= length H)%nat ->
  s_f_history (Adams_Steps T f y0 x0 h H tolerance iterations) !! j =
  if decide (j = order T - 2 \/ j = order T - 1)%nat
  then Some (f x0 y0)
  else if decide (j < order T - 2)%nat then H !! S j else H !! j.
Proof.
  intros Hk. cbn [Adams_Steps s_f_history]. rewrite STEPS_order.
  replace (Z.to_nat (Z.of_nat (order T) - 1 - 0)) with (order T - 1)%nat by lia.
  replace (Z.to_nat (Z.of_nat (order T) - 1)) with (order T - 1)%nat by lia.
  rewrite shift_loop_lookup by (rewrite ?length_insert; cbn; lia).
  change (Z.to_nat 0) with 0%nat.
  repeat case_decide; try lia.
  - replace (S j) with (order T - 1)%nat by lia.
    apply list_lookup_insert_eq. lia.
  - apply list_lookup_insert_ne. lia.
  - replace j with (order T - 1)%nat by lia.
    apply list_lookup_insert_eq. lia.
  - apply list_lookup_insert_ne. lia.
Qed.

Lemma Adams_Steps_history_length (y0 x0 h : double) (H : list double)
    (tolerance : double) (iterations : Z) :
  length (s_f_history (Adams_Steps T f y0 x0 h H tolerance iterations)) =
  length H.
Proof.
  cbn [Adams_Steps s_f_history]. rewrite shift_loop_length. apply length_insert.
Qed.

(** The corrector never reads slot [k-1]. *)
Lemma Adams_Moulton_Steps_ignores_last (y0 y1 x h : double)
    (fh : list double) (tolerance : double) (iterations : Z) (v : double) :
  (1 <= order T)%nat ->
  Adams_Moulton_Steps T f y0 y1 x h (<[(order T - 1)%nat := v]> fh)
    tolerance iterations =
  Adams_Moulton_Steps T f y0 y1 x h fh tolerance iterations.
Proof.
  intros Hk. unfold Adams_Moulton_Steps. rewrite !moulton_loop_sum.
  replace (moulton_sum T (<[(order T - 1)%nat:=v]> fh))
    with (moulton_sum T fh); [reflexivity|].
  unfold moulton_sum, dsum. apply fold_left_ext_in.
  intros a j Hj. apply in_seq in Hj.
  rewrite list_lookup_total_insert_ne by lia. reflexivity.
Qed.

(** The driver overwrites slot [k-1] before it reads the history. *)
Lemma Adams_Steps_ignores_last (y0 x0 h : double) (H : list double)
    (tolerance : double) (iterations : Z) (v : double) :
  (1 <= order T)%nat ->
  Adams_Steps T f y0 x0 h (<[(order T - 1)%nat := v]> H) tolerance iterations =
  Adams_Steps T f y0 x0 h H tolerance iterations.
Proof.
  intros Hk. unfold Adams_Steps. rewrite STEPS_order.
  replace (Z.to_nat (Z.of_nat (order T) - 1)) with (order T - 1)%nat by lia.
  rewrite list_insert_insert_eq. reflexivity.
Qed.
End Step_driver.

(** C1, as amended.  After one call of the step driver on a history [H] of
    at least [k] entries, [new[i] = H[i+1]] for [i = 0 .. k-3] and
    [new[k-2] = new[k-1] = f(x0, y[0])]; the length is unchanged and entries
    from index [k] on are not touched.  The input value [H[k-1]] is
    overwritten before the shift and appears nowhere in the result. *)
Theorem history_shift (T : table) (f : double -> double -> double)
    (y0 x0 h : double) (H : list double) (tolerance : double)
    (iterations : Z) :
  In T supplied -> (order T <= length H)%nat ->
  let k := order T in
  let new := s_f_history (Adams_Steps T f y0 x0 h H tolerance iterations) in
  length new = length H /\
  (forall i, (i < k - 2)%nat -> new !! i = H !! S i) /\
  new !! (k - 2)%nat = Some (f x0 y0) /\
  new !! (k - 1)%nat = Some (f x0 y0) /\
  (forall i, (k <= i)%nat -> new !! i = H !! i).
Proof.
  intros HT Hlen. cbv zeta.
  assert (Hk : (2 <= order T <= length H)%nat)
    by (destruct (supplied_order T HT) as [E|[E|E]]; rewrite E in *; lia).
  split; [apply Adams_Steps_history_length|].
  repeat split; intros; rewrite Adams_Steps_history by assumption;
    repeat case_decide; try lia; reflexivity.
Qed.

Lemma history_shift_witness :
  In adams_12 supplied /\
  (order adams_12 <= length (constant_history adams_12 1%float))%nat /\
  s_f_history (Adams_12_Steps (fun _ y => y) 1 0 0.01
                 (constant_history adams_12 1) 1e-12 10) !! 10%nat =
  Some 1%float.
Proof.
  assert (HT : In adams_12 supplied) by (left; reflexivity).
  assert (Hlen : (order adams_12 <= length (constant_history adams_12 1%float))%nat)
    by (vm_compute; lia).
  split; [exact HT|]. split; [exact Hlen|].
  exact (proj1 (proj2 (proj2
    (history_shift adams_12 (fun _ y => y) 1 0 0.01
       (constant_history adams_12 1) 1e-12 10 HT Hlen)))).
Defined.

(** C1 fails at [i = k-2]: on the history [1, 2, .., 12] with [f = 0] the
    entry [new[10]] is the fresh sample 0, not the old [H[11] = 12]. *)
Lemma history_shift_counterexample :
  s_f_history (Adams_12_Steps (fun _ _ => 0%float) 1 0 0.01
     [1; 2; 3; 4; 5; 6; 7; 8; 9; 10; 11; 12]%float 1e-12 10) !! 10%nat
  = Some 0%float /\
  ([1; 2; 3; 4; 5; 6; 7; 8; 9; 10; 11; 12]%float : list double) !! 11%nat
  = Some 12%float /\
  s_f_history (Adams_12_Steps (fun _ _ => 0%float) 1 0 0.01
     [1; 2; 3; 4; 5; 6; 7; 8; 9; 10; 11; 12]%float 1e-12 10) !! 10%nat
  <> ([1; 2; 3; 4; 5; 6; 7; 8; 9; 10; 11; 12]%float : list double) !! S 10.
Proof.
  split; [vm_compute; reflexivity|]. split; [reflexivity|].
  vm_compute. float_neq.
Qed.

(** C10.  After a call of the step driver the last two entries of the
    history both hold the fresh sample [f(x0, y[0])].  Slot [k-1] is
    scratch between calls: the corrector does not read it and the driver
    overwrites it before reading the history, so neither depends on it; and
    the next call, whatever its arguments, leaves the last two entries
    equal again. *)
Theorem last_two_entries_equal (T : table) (f : double -> double -> double)
    (y0 x0 h : double) (H : list double) (tolerance : double)
    (iterations : Z) :
  In T supplied -> (order T <= length H)%nat ->
  let k := order T in
  let new := s_f_history (Adams_Steps T f y0 x0 h H tolerance iterations) in
  (new !! (k - 1)%nat = Some (f x0 y0) /\ new !! (k - 2)%nat = Some (f x0 y0)) /\
  (forall v y0' y1' x' h' tolerance' iterations',
     Adams_Moulton_Steps T f y0' y1' x' h' (<[(k - 1)%nat := v]> new)
       tolerance' iterations' =
     Adams_Moulton_Steps T f y0' y1' x' h' new tolerance' iterations') /\
  (forall v y0' x0' h' tolerance' iterations',
     Adams_Steps T f y0' x0' h' (<[(k - 1)%nat := v]> new)
       tolerance' iterations' =
     Adams_Steps T f y0' x0' h' new tolerance' iterations') /\
  (forall y0' x0' h' tolerance' iterations',
     let new' := s_f_history
                   (Adams_Steps T f y0' x0' h' new tolerance' iterations') in
     length new' = length H /\
     new' !! (k - 1)%nat = Some (f x0' y0') /\
     new' !! (k - 2)%nat = Some (f x0' y0')).
Proof.
  intros HT Hlen. cbv zeta.
  assert (Hk : (2 <= order T)%nat)
    by (destruct (supplied_order T HT) as [E|[E|E]]; rewrite E; lia).
  split; [|split; [|split]].
  - split; rewrite Adams_Steps_history by lia;
      rewrite decide_True by lia; reflexivity.
  - intros. apply Adams_Moulton_Steps_ignores_last. lia.
  - intros. apply Adams_Steps_ignores_last. lia.
  - intros. rewrite !Adams_Steps_history_length.
    split; [reflexivity|].
    split; rewrite Adams_Steps_history
      by (rewrite Adams_Steps_history_length; lia);
      rewrite decide_True by lia; reflexivity.
Qed.

Lemma last_two_entries_equal_witness :
  In adams_16 supplied /\
  (order adams_16 <= length (constant_history adams_16 1%float))%nat /\
  s_f_history (Adams_16_Steps (fun x _ => x) 1 0.5 0.01
                 (constant_history adams_16 1) 1e-12 10) !! 15%nat =
  Some 0.5%float /\
  s_f_history (Adams_16_Steps (fun x _ => x) 1 0.5 0.01
                 (constant_history adams_16 1) 1e-12 10) !! 14%nat =
  Some 0.5%float.
Proof.
  assert (HT : In adams_16 supplied) by (right; left; reflexivity).
  assert (Hlen : (order adams_16 <= length (constant_history adams_16 1%float))%nat)
    by (vm_compute; lia).
  split; [exact HT|]. split; [exact Hlen|].
  exact (proj1
    (last_two_entries_equal adams_16 (fun x _ => x) 1 0.5 0.01
       (constant_history adams_16 1) 1e-12 10 HT Hlen)).
Defined.

(** ** The history builder *)

(** C2, as amended.  Given [k] trajectory values and a history of [k]
    entries, the builder sets [f_history[i] = f(x_i, y[i])] for
    [i = 0 .. k-2], where [x_0 = x] and [x_(i+1) = x_i + h] is the running
    sum of the loop in double arithmetic; its first [k-1] calls of [f] are
    at these points, in increasing order of [i]; the length of the history
    is unchanged.  Nothing is stated about slot [k-1]. *)
Theorem build_history_entries (T : table) (f : double -> double -> double)
    (f_history y : list double) (x h : double) :
  (order T <= length f_history)%nat -> (order T <= length y)%nat ->
  let r := Adams_Build_History T f f_history y x h in
  length r.1 = length f_history /\
  (forall i, (i < order T - 1)%nat ->
     r.1 !! i = Some (f (running_abscissa x h i) (y !!! i))) /\
  exists more,
    r.2 = map (fun i => (running_abscissa x h i, y !!! i))
              (seq 0 (order T - 1)) ++ more.
Proof.
  intros Hlen _. cbv zeta. unfold Adams_Build_History. rewrite STEPS_order.
  replace (Z.to_nat (Z.of_nat (order T) - 1 - 0)) with (order T - 1)%nat by lia.
  split; [apply build_loop_length|]. split.
  - intros i Hi. rewrite build_loop_lookup by (cbn; lia).
    change (Z.to_nat 0) with 0%nat.
    rewrite decide_True by lia. rewrite Nat.sub_0_r. reflexivity.
  - exists []. rewrite build_loop_evals by lia. rewrite app_nil_r. reflexivity.
Qed.

Lemma build_history_entries_witness :
  (order adams_12 <= length (replicate 12 0%float))%nat /\
  (order adams_12 <= length [1; 2; 3; 4; 5; 6; 7; 8; 9; 10; 11; 12]%float)%nat /\
  (Adams_12_Build_History (fun x y => (x + y)%float) (replicate 12 0%float)
     [1; 2; 3; 4; 5; 6; 7; 8; 9; 10; 11; 12]%float 0 0.1).1 !! 2%nat =
  Some (running_abscissa 0 0.1 2 + 3)%float.
Proof.
  assert (H1 : (order adams_12 <= length (replicate 12 0%float))%nat)
    by (vm_compute; lia).
  assert (H2 : (order adams_12 <=
                length [1; 2; 3; 4; 5; 6; 7; 8; 9; 10; 11; 12]%float)%nat)
    by (vm_compute; lia).
  split; [exact H1|]. split; [exact H2|].
  refine (proj1 (proj2
    (build_history_entries adams_12 (fun x y => (x + y)%float)
       (replicate 12 0%float) [1; 2; 3; 4; 5; 6; 7; 8; 9; 10; 11; 12]%float
       0 0.1 H1 H2)) 2%nat _).
  vm_compute. lia.
Defined.

(** C2 fails on the abscissas: with [f(x, y) = x], [x = 0] and [h = 0.1],
    order 12, slot 6 holds the running sum 0.1 + .. + 0.1 (six terms,
    0.59999999999999998), which is not the double [0 + 6 * 0.1]
    (0.60000000000000009). *)
Lemma build_history_entries_counterexample :
  (Adams_12_Build_History (fun x _ => x) (replicate 12 0%float)
     (replicate 12 0%float) 0 0.1).1 !! 6%nat
  = Some (running_abscissa 0 0.1 6) /\
  (Adams_12_Build_History (fun x _ => x) (replicate 12 0%float)
     (replicate 12 0%float) 0 0.1).1 !! 6%nat
  <> Some (direct_abscissa 0 0.1 6).
Proof.
  split; [vm_compute; reflexivity | vm_compute; float_neq].
Qed.

(** ** The convergence predicate *)

(** C3.  For all doubles, [hasConverged(y0, y1, epsilon)] holds exactly when
    [|y0 - y1| < B], with [B = |y1| * epsilon] when [min(|y0|, |y1|) > 1]
    and [B = epsilon] otherwise; the conjunction [|y0| > 1 && |y1| > 1] of
    the code is the test [min(|y0|, |y1|) > 1]; and the comparison is
    strict: a difference equal to the bound has not converged. *)
Theorem hasConverged_rule :
  (forall y0 y1 epsilon : double,
     hasConverged y0 y1 epsilon = true <->
     (abs (y0 - y1) <? effective_bound y0 y1 epsilon)%float = true) /\
  (forall y0 y1 : double,
     (1.0 <? abs y0)%float && (1.0 <? abs y1)%float =
     (1.0 <? dmin (abs y0) (abs y1))%float) /\
  (forall y0 y1 epsilon : double,
     (abs (y0 - y1) =? effective_bound y0 y1 epsilon)%float = true ->
     hasConverged y0 y1 epsilon = false).
Proof.
  split; [|split].
  - intros. rewrite hasConverged_effective_bound. reflexivity.
  - intros. apply both_above_one.
  - intros y0 y1 epsilon H. rewrite hasConverged_effective_bound.
    rewrite FloatAxioms.eqb_spec in H. rewrite FloatAxioms.ltb_spec.
    apply SFeqb_not_ltb, H.
Qed.

(** The predicate on sample inputs: relative mode, absolute mode on either
    side of the bound, a difference equal to the bound in each mode, and a
    not-a-number. *)
Lemma hasConverged_examples :
  hasConverged 100.0 (100.0 + 1e-7) 1e-6 = true /\
  hasConverged 0.5 (0.5 + 1e-7) 1e-6 = true /\
  hasConverged 0.5 (0.5 + 1e-5) 1e-6 = false /\
  hasConverged 0.25 0.75 0.5 = false /\
  hasConverged 2 4 0.5 = false /\
  hasConverged nan 2 1 = false.
Proof. repeat split; vm_compute; reflexivity. Qed.

(** ** The coefficient tables *)

(** C8, as amended.  In each of the three tables the integer literals of
    [bashforth] add up to the denominator of [divisor], so that
    [divisor * sum = 1] as rationals; the tables hold these literals rounded
    to double.  On a history filled with a constant [c] the predictor
    returns [y + h * divisor * S], where [S] accumulates [bashforth[j] * c]
    in doubles from 0.0 for [j = 0 .. k-1]; for [h = 0.1], [y = 1.0] and
    [c = 2.0] this is within 1e-9 of [y + h*c] at every order. *)
Theorem bashforth_weights_sum_to_one :
  (Zsum bashforth_12_literals = divisor_12_denominator /\
   Zsum bashforth_16_literals = divisor_16_denominator /\
   Zsum bashforth_20_literals = divisor_20_denominator) /\
  ((/ inject_Z divisor_12_denominator * inject_Z (Zsum bashforth_12_literals) == 1)%Q /\
   (/ inject_Z divisor_16_denominator * inject_Z (Zsum bashforth_16_literals) == 1)%Q /\
   (/ inject_Z divisor_20_denominator * inject_Z (Zsum bashforth_20_literals) == 1)%Q) /\
  (bashforth adams_12 = map double_of_Z bashforth_12_literals /\
   bashforth adams_16 = map double_of_Z bashforth_16_literals /\
   bashforth adams_20 = map double_of_Z bashforth_20_literals) /\
  (divisor adams_12 = (1 / double_of_Z divisor_12_denominator)%float /\
   divisor adams_16 = (1 / double_of_Z divisor_16_denominator)%float /\
   divisor adams_20 = (1 / double_of_Z divisor_20_denominator)%float) /\
  (forall (T : table) (y h c : double),
     Adams_Bashforth_Steps T y h (constant_history T c) =
     (y + h * divisor T *
        dsum (fun j => (bashforth T !!! j * c)%float) (seq 0 (order T)))%float) /\
  Forall (fun T =>
    (abs (Adams_Bashforth_Steps T 1.0 0.1 (constant_history T 2.0)
          - (1.0 + 0.1 * 2.0)) <? 1e-9)%float = true) supplied.
Proof.
  split; [repeat split; vm_compute; reflexivity|].
  split; [repeat split; vm_compute; reflexivity|].
  split; [repeat split; vm_compute; reflexivity|].
  split; [repeat split; vm_compute; reflexivity|].
  split; [|repeat constructor; vm_compute; reflexivity].
  intros T y h c. rewrite predictor_weighted_sum_aux.
  do 2 f_equal. unfold bashforth_sum, dsum. apply fold_left_ext_in.
  intros a j Hj. apply in_seq in Hj. do 2 f_equal.
  unfold constant_history. apply list_lookup_total_correct.
  apply lookup_replicate_2. lia.
Qed.

(** C8 fails for other constants.  With [c = 1e300] (and [h = 0.1],
    [y = 1.0]) the products [bashforth[j] * c] overflow to infinities of
    both signs and the predictor of order 12 returns not-a-number, while
    [y + h*c] is a finite double; with [c = 4000] the predictor of order 20
    is further than 1e-9 from [y + h*c]. *)
Lemma bashforth_weights_sum_to_one_counterexample :
  is_nan (Adams_Bashforth_12_Steps 1.0 0.1 (constant_history adams_12 1e300))
    = true /\
  is_finite (1.0 + 0.1 * 1e300) = true /\
  (abs (Adams_Bashforth_20_Steps 1.0 0.1 (constant_history adams_20 4000)
        - (1.0 + 0.1 * 4000)) <? 1e-9)%float = false.
Proof. repeat split; vm_compute; reflexivity. Qed.

(** * Further properties of the routines *)

(** ** What a successful convergence test implies *)

Lemma is_finite_spec (a : double) : is_finite a = SFfinite (Prim2SF a).
Proof.
  unfold is_finite, is_infinity.
  destruct (is_nan a) eqn:Hnan.
  - apply is_nan_spec in Hnan. rewrite Hnan. reflexivity.
  - rewrite FloatAxioms.eqb_spec, FloatAxioms.abs_spec.
    assert (Prim2SF a <> S754_nan) as Ha by (rewrite <- is_nan_spec; congruence).
    change (Prim2SF infinity) with (S754_infinity false).
    destruct (Prim2SF a) as [s|s| |s m e]; try congruence; destruct s; reflexivity.
Qed.

Lemma zero_ltb_spec (a : double) : (0 <? a)%float = SFpositive (Prim2SF a).
Proof.
  rewrite FloatAxioms.ltb_spec, Prim2SF_zero.
  destruct (Prim2SF a) as [s|s| |s m e]; try destruct s; reflexivity.
Qed.

(** Rounding keeps the sign it is given. *)
Lemma binary_round_aux_positive (sx : bool) (mx ex : Z) (lx : location) :
  SFpositive (binary_round_aux prec emax sx mx ex lx) = true -> sx = false.
Proof.
  unfold binary_round_aux.
  destruct (shr_fexp prec emax mx ex lx) as [mrs' e'].
  destruct (shr_fexp prec emax _ e' loc_Exact) as [mrs'' e''].
  destruct (shr_m mrs'') as [|m|m]; [| |discriminate].
  - destruct sx; [discriminate | reflexivity].
  - destruct (e'' <=? emax - prec)%Z; destruct sx; (discriminate || reflexivity).
Qed.

Lemma SFmul_abs_positive (a b : spec_float) :
  SFpositive (SFmul prec emax a (SFabs b)) = true -> SFpositive a = true.
Proof.
  destruct a as [sa|sa| |sa ma ea], b as [sb|sb| |sb mb eb];
    cbn [SFmul SFabs]; try discriminate;
    try (destruct sa; (discriminate || reflexivity)).
  intros H. apply binary_round_aux_positive in H.
  destruct sa; [discriminate | reflexivity].
Qed.

Lemma SFltb_abs_bound (d b : spec_float) :
  SFltb (SFabs d) b = true -> SFfinite d = true /\ SFpositive b = true.
Proof.
  unfold SFltb.
  destruct d as [sd|sd| |sd md ed], b as [sb|sb| |sb mb eb];
    cbn [SFabs SFcompare]; try destruct sb; try discriminate;
    intros _; split; reflexivity.
Qed.

Lemma SFsub_finite (a b : spec_float) :
  SFfinite (SFsub prec emax a b) = true ->
  SFfinite a = true /\ SFfinite b = true.
Proof.
  destruct a as [sa|sa| |sa ma ea], b as [sb|sb| |sb mb eb];
    try (intros _; split; reflexivity);
    cbn [SFsub]; try destruct sa; try destruct sb; discriminate.
Qed.

Lemma hasConverged_true_inv (y0 y1 epsilon : double) :
  hasConverged y0 y1 epsilon = true ->
  is_finite y0 = true /\ is_finite y1 = true /\ (0 <? epsilon)%float = true.
Proof.
  unfold hasConverged. rewrite !is_finite_spec, zero_ltb_spec.
  rewrite FloatAxioms.ltb_spec, FloatAxioms.abs_spec, FloatAxioms.sub_spec.
  intros H. apply SFltb_abs_bound in H. destruct H as [Hd Hb].
  apply SFsub_finite in Hd. destruct Hd as [H0 H1].
  split; [exact H0|]. split; [exact H1|].
  destruct ((1 <? abs y0)%float && (1 <? abs y1)%float); [|exact Hb].
  rewrite FloatAxioms.mul_spec, FloatAxioms.abs_spec in Hb.
  apply SFmul_abs_positive in Hb. exact Hb.
Qed.

(** The test can only succeed between two finite estimates and under a
    tolerance above zero: a not-a-number or an infinity on either side, and
    a zero, negative or not-a-number tolerance, all give 0. *)
Theorem hasConverged_true_finite (y0 y1 epsilon : double) :
  hasConverged y0 y1 epsilon = true ->
  is_finite y0 = true /\ is_finite y1 = true /\ (0 <? epsilon)%float = true.
Proof. apply hasConverged_true_inv. Qed.

Lemma hasConverged_true_finite_witness :
  hasConverged 100.0 (100.0 + 1e-7) 1e-6 = true /\
  is_finite 100.0 = true /\ is_finite (100.0 + 1e-7) = true /\
  (0 <? 1e-6)%float = true.
Proof.
  assert (H : hasConverged 100.0 (100.0 + 1e-7) 1e-6 = true)
    by (vm_compute; reflexivity).
  split; [exact H|].
  exact (hasConverged_true_finite 100.0 (100.0 + 1e-7) 1e-6 H).
Defined.

(** ** The corrector, seen from its caller *)

Lemma find_seq_extend (p : nat -> bool) (N : nat) :
  forall a N' m, (N <= N')%nat ->
  find p (seq a N) = Some m -> find p (seq a N') = Some m.
Proof.
  induction N as [|N IH]; intros a N' m Hle; cbn [seq find]; [discriminate|].
  destruct N' as [|N']; [lia|]. cbn [seq find].
  destruct (p a); [trivial|]. apply IH. lia.
Qed.

(** A return value within the budget certifies the result: the corrector ran
    exactly that many rounds, the last test succeeded, the estimate left in
    [y[1]] and the one before it are finite doubles, and the tolerance was
    above zero. *)
Theorem corrector_success_is_finite (T : table)
    (f : double -> double -> double) (y0 y1 x h : double)
    (f_history : list double) (tolerance : double) (N : Z) :
  0 <= N < INT_MAX ->
  let c := Adams_Moulton_Steps T f y0 y1 x h f_history tolerance N in
  c_ret c <= N ->
  Z.of_nat (c_rounds c) = c_ret c /\
  hasConverged
    (estimate T f y0 x h (moulton_sum T f_history) y1 (c_rounds c - 1))
    (c_y1 c) tolerance = true /\
  is_finite (c_y1 c) = true /\
  (0 <? tolerance)%float = true.
Proof.
  unfold INT_MAX. intros HN. cbv zeta. intros Hret.
  destruct (corrector_success_or_failure T f y0 y1 x h f_history tolerance N)
    as [(m & Hm & Hfirst)|Hnever].
  - destruct (corrector_ret_success T f y0 y1 x h f_history tolerance N m Hm Hfirst)
      as [Hr Hrounds].
    rewrite int_wrap_in_range in Hr by (unfold INT_MIN, INT_MAX; lia).
    rewrite corrector_estimate, Hrounds.
    destruct Hfirst as [Hyes _]. unfold converged_at in Hyes.
    split; [lia|]. split; [exact Hyes|].
    apply hasConverged_true_inv in Hyes. tauto.
  - destruct (corrector_ret_failure T f y0 y1 x h f_history tolerance N Hnever)
      as [Hr _].
    rewrite Z2Nat.id in Hr by lia.
    rewrite int_wrap_in_range in Hr by (unfold INT_MIN, INT_MAX; lia). lia.
Qed.

Lemma corrector_success_is_finite_witness :
  0 <= 10 < INT_MAX /\
  c_ret (Adams_Moulton_11_Steps (fun _ y => y) 1 1.01 0.01 0.01
           (constant_history adams_12 1) 1e-12 10) <= 10 /\
  is_finite (c_y1 (Adams_Moulton_11_Steps (fun _ y => y) 1 1.01 0.01 0.01
                     (constant_history adams_12 1) 1e-12 10)) = true.
Proof.
  assert (HN : 0 <= 10 < INT_MAX) by (unfold INT_MAX; lia).
  assert (Hret : c_ret (Adams_Moulton_Steps adams_12 (fun _ y => y) 1 1.01 0.01
                    0.01 (constant_history adams_12 1) 1e-12 10) <= 10)
    by (vm_compute; discriminate).
  split; [exact HN|]. split; [exact Hret|].
  exact (proj1 (proj2 (proj2
    (corrector_success_is_finite adams_12 (fun _ y => y) 1 1.01 0.01 0.01
       (constant_history adams_12 1) 1e-12 10 HN Hret)))).
Defined.

(** Under a tolerance that is not above zero (zero, negative or not a
    number) no test succeeds: the corrector uses its whole budget and
    returns [N + 1]. *)
Theorem corrector_exhausts_budget (T : table)
    (f : double -> double -> double) (y0 y1 x h : double)
    (f_history : list double) (tolerance : double) (N : Z) :
  0 <= N < INT_MAX -> (0 <? tolerance)%float = false ->
  let c := Adams_Moulton_Steps T f y0 y1 x h f_history tolerance N in
  c_ret c = N + 1 /\ c_rounds c = Z.to_nat N /\
  length (c_evals c) = Z.to_nat N.
Proof.
  unfold INT_MAX. intros HN Htol. cbv zeta.
  assert (Hnever : never_within T f y0 x h (moulton_sum T f_history) tolerance
                     y1 (Z.to_nat N)).
  { intros j _. unfold converged_at.
    destruct (hasConverged _ _ tolerance) eqn:E; [|reflexivity].
    apply hasConverged_true_inv in E. destruct E as (_ & _ & E). congruence. }
  destruct (corrector_ret_failure T f y0 y1 x h f_history tolerance N Hnever)
    as [Hr Hrounds].
  rewrite Z2Nat.id in Hr by lia.
  rewrite int_wrap_in_range in Hr by (unfold INT_MIN, INT_MAX; lia).
  split; [exact Hr|]. split; [exact Hrounds|].
  rewrite corrector_evals, length_map, length_seq. exact Hrounds.
Qed.

Lemma corrector_exhausts_budget_witness :
  0 <= 3 < INT_MAX /\ (0 <? -1e-6)%float = false /\
  c_ret (Adams_Moulton_15_Steps (fun _ y => y) 1 1.01 0.01 0.01
           (constant_history adams_16 1) (-1e-6) 3) = 3 + 1.
Proof.
  assert (HN : 0 <= 3 < INT_MAX) by (unfold INT_MAX; lia).
  assert (Htol : (0 <? -1e-6)%float = false) by (vm_compute; reflexivity).
  split; [exact HN|]. split; [exact Htol|].
  exact (proj1
    (corrector_exhausts_budget adams_16 (fun _ y => y) 1 1.01 0.01 0.01
       (constant_history adams_16 1) (-1e-6) 3 HN Htol)).
Defined.

(** Once the corrector has converged within a budget, a larger budget
    changes nothing: same return value, same [y[1]], same calls of [f]. *)
Theorem corrector_budget_stable (T : table)
    (f : double -> double -> double) (y0 y1 x h : double)
    (f_history : list double) (tolerance : double) (N N' : Z) :
  0 <= N < INT_MAX -> N <= N' ->
  c_ret (Adams_Moulton_Steps T f y0 y1 x h f_history tolerance N) <= N ->
  Adams_Moulton_Steps T f y0 y1 x h f_history tolerance N' =
  Adams_Moulton_Steps T f y0 y1 x h f_history tolerance N.
Proof.
  unfold INT_MAX. intros HN HN'.
  rewrite !Adams_Moulton_Steps_spec.
  destruct (find _ (seq 1 (Z.to_nat N))) as [m|] eqn:Hfind.
  - intros _.
    rewrite (find_seq_extend _ (Z.to_nat N) 1%nat (Z.to_nat N') m ltac:(lia) Hfind).
    reflexivity.
  - cbn [c_ret]. rewrite Z2Nat.id by lia.
    rewrite int_wrap_in_range by (unfold INT_MIN, INT_MAX; lia). lia.
Qed.

Lemma corrector_budget_stable_witness :
  0 <= 10 < INT_MAX /\ 10 <= 1000 /\
  Adams_Moulton_19_Steps (fun _ y => y) 1 1.01 0.01 0.01
    (constant_history adams_20 1) 1e-12 1000 =
  Adams_Moulton_19_Steps (fun _ y => y) 1 1.01 0.01 0.01
    (constant_history adams_20 1) 1e-12 10.
Proof.
  assert (HN : 0 <= 10 < INT_MAX) by (unfold INT_MAX; lia).
  assert (HN' : 10 <= 1000) by lia.
  split; [exact HN|]. split; [exact HN'|].
  refine (corrector_budget_stable adams_20 (fun _ y => y) 1 1.01 0.01 0.01
            (constant_history adams_20 1) 1e-12 10 1000 HN HN' _).
  vm_compute. discriminate.
Defined.

(** A budget of zero or less: the corrector returns 1 without touching
    [y[1]] or calling [f]; the step driver then returns 1 with the
    predictor's value in [y[1]], after its single call of [f] at
    [(x0, y[0])]. *)
Theorem no_budget_no_correction (T : table)
    (f : double -> double -> double) (y0 y1 x h : double)
    (f_history : list double) (tolerance : double) (N : Z) :
  N <= 0 ->
  Adams_Moulton_Steps T f y0 y1 x h f_history tolerance N =
    Corrected 1 y1 0 [] /\
  let s := Adams_Steps T f y0 x h f_history tolerance N in
  s_ret s = 1 /\ s_y1 s = s_y_bashforth s /\ s_evals s = [(x, y0)].
Proof.
  intros HN.
  assert (H : forall y0 y1 x h fh,
            Adams_Moulton_Steps T f y0 y1 x h fh tolerance N = Corrected 1 y1 0 []).
  { intros. unfold Adams_Moulton_Steps.
    replace (Z.to_nat (N - 0)) with 0%nat by lia. reflexivity. }
  split; [apply H|]. cbv zeta. unfold Adams_Steps. rewrite H.
  repeat split.
Qed.

Lemma no_budget_no_correction_witness :
  -2 <= 0 /\
  s_ret (Adams_12_Steps (fun _ y => y) 1 0 0.01
           (constant_history adams_12 1) 1e-12 (-2)) = 1.
Proof.
  assert (HN : -2 <= 0) by lia.
  split; [exact HN|].
  exact (proj1 (proj2
    (no_budget_no_correction adams_12 (fun _ y => y) 1 1 0 0.01
       (constant_history adams_12 1) 1e-12 (-2) HN))).
Defined.

(** ** The history builder and the first step *)

Lemma lookup_total_ext (l l' : list double) (i : nat) :
  l !! i = l' !! i -> l !!! i = l' !!! i.
Proof. intros H. rewrite !list_lookup_total_alt, H. reflexivity. Qed.

(** The builder writes slots [0 .. k-2] and nothing else, and it reads
    [y[0 .. k-2]] and nothing else: slots from [k-1] on keep their values,
    and the result does not depend on what slots [0 .. k-2] held before nor
    on entries of [y] from [k-1] on. *)
Theorem build_history_frame (T : table) (f : double -> double -> double)
    (f_history f_history' y y' : list double) (x h : double) :
  (order T - 1 <= length f_history)%nat ->
  length f_history' = length f_history ->
  (forall j, (order T - 1 <= j)%nat -> f_history' !! j = f_history !! j) ->
  (forall i, (i < order T - 1)%nat -> y' !! i = y !! i) ->
  (forall j, (order T - 1 <= j)%nat ->
     (Adams_Build_History T f f_history y x h).1 !! j = f_history !! j) /\
  Adams_Build_History T f f_history' y' x h =
  Adams_Build_History T f f_history y x h.
Proof.
  intros Hlen Hlen' Hrest Hy. unfold Adams_Build_History. rewrite STEPS_order.
  replace (Z.to_nat (Z.of_nat (order T) - 1 - 0)) with (order T - 1)%nat by lia.
  split.
  - intros j Hj. rewrite build_loop_lookup by (cbn; lia).
    change (Z.to_nat 0) with 0%nat. rewrite decide_False by lia. reflexivity.
  - apply injective_projections.
    + apply list_eq. intros j.
      rewrite !build_loop_lookup by (cbn; lia).
      change (Z.to_nat 0) with 0%nat. case_decide.
      * rewrite (lookup_total_ext y' y j) by (apply Hy; lia). reflexivity.
      * apply Hrest. lia.
    + rewrite !build_loop_evals by lia. f_equal.
      apply map_ext_in. intros r Hr. apply in_seq in Hr.
      change (Z.to_nat 0) with 0%nat. cbn [Nat.add].
      rewrite (lookup_total_ext y' y r) by (apply Hy; lia). reflexivity.
Qed.

Lemma build_history_frame_witness :
  (Adams_12_Build_History (fun x y => (x + y)%float)
     [9; 9; 9; 9; 9; 9; 9; 9; 9; 9; 9; 7]%float (replicate 12 1%float)
     0 0.1).1 !! 11%nat = Some 7%float.
Proof.
  refine (proj1 (build_history_frame adams_12 (fun x y => (x + y)%float)
     [9; 9; 9; 9; 9; 9; 9; 9; 9; 9; 9; 7]%float
     [9; 9; 9; 9; 9; 9; 9; 9; 9; 9; 9; 7]%float
     (replicate 12 1%float) (replicate 12 1%float) 0 0.1 _ _ _ _) 11%nat _).
  - vm_compute. lia.
  - reflexivity.
  - intros; reflexivity.
  - intros; reflexivity.
  - vm_compute. lia.
Defined.

(** Bootstrapping, then stepping.  A buffer of exactly [k] doubles with
    arbitrary contents is filled by the builder from [y[0 .. k-2]] and
    handed to the step driver at [(x0, y[0])].  The step does not depend on
    the initial contents of the buffer (slot [k-1], which the builder leaves
    as it was, included); its predictor combines the [k-1] samples of the
    builder with the fresh sample [f(x0, y[0])], newest first; and the
    history it leaves is the builder's samples moved down by one, followed
    by the fresh sample. *)
Theorem bootstrap_then_step (T : table) (f : double -> double -> double)
    (B B' y : list double) (xb hb y0 x0 h tolerance : double) (N : Z) :
  In T supplied -> length B = order T -> length B' = order T ->
  let k := order T in
  let sample i := f (running_abscissa xb hb i) (y !!! i) in
  let window i := if (i <? k - 1)%nat then sample i else f x0 y0 in
  let H := (Adams_Build_History T f B y xb hb).1 in
  let H' := (Adams_Build_History T f B' y xb hb).1 in
  let s := Adams_Steps T f y0 x0 h H tolerance N in
  Adams_Steps T f y0 x0 h H' tolerance N = s /\
  s_y_bashforth s =
    (y0 + h * divisor T *
       dsum (fun j => (bashforth T !!! j * window (k - 1 - j)%nat)%float)
            (seq 0 k))%float /\
  (forall i, (i < k - 2)%nat -> s_f_history s !! i = Some (sample (S i))) /\
  s_f_history s !! (k - 2)%nat = Some (f x0 y0).
Proof.
  intros HT HB HB'. cbv zeta.
  assert (Hk : (2 <= order T)%nat)
    by (destruct (supplied_order T HT) as [E|[E|E]]; rewrite E; lia).
  assert (Hbuilt : forall C, length C = order T ->
            length (Adams_Build_History T f C y xb hb).1 = order T /\
            forall i, (i < order T - 1)%nat ->
              (Adams_Build_History T f C y xb hb).1 !! i =
              Some (f (running_abscissa xb hb i) (y !!! i))).
  { intros C HC. unfold Adams_Build_History. rewrite STEPS_order.
    replace (Z.to_nat (Z.of_nat (order T) - 1 - 0)) with (order T - 1)%nat by lia.
    split; [rewrite build_loop_length; exact HC|].
    intros i Hi. rewrite build_loop_lookup by (cbn; lia).
    change (Z.to_nat 0) with 0%nat.
    rewrite decide_True by lia. rewrite Nat.sub_0_r. reflexivity. }
  destruct (Hbuilt B HB) as [HlenH HH]. destruct (Hbuilt B' HB') as [HlenH' HH'].
  set (H := (Adams_Build_History T f B y xb hb).1) in *.
  set (H' := (Adams_Build_History T f B' y xb hb).1) in *.
  split; [|split; [|split]].
  - rewrite <- (Adams_Steps_ignores_last T f y0 x0 h H tolerance N
                  (H' !!! (order T - 1)%nat)) by lia.
    f_equal. apply list_eq. intros i.
    destruct (Nat.lt_trichotomy i (order T - 1)) as [Hi|[->|Hi]].
    + rewrite list_lookup_insert_ne by lia. rewrite HH, HH' by lia. reflexivity.
    + rewrite list_lookup_insert_eq by lia.
      apply list_lookup_lookup_total_lt. lia.
    + rewrite list_lookup_insert_ne by lia.
      rewrite !lookup_ge_None_2 by lia. reflexivity.
  - cbn [Adams_Steps s_y_bashforth]. rewrite predictor_weighted_sum_aux.
    do 2 f_equal. unfold bashforth_sum, dsum. apply fold_left_ext_in.
    intros a j Hj. apply in_seq in Hj. do 2 f_equal.
    rewrite STEPS_order.
    replace (Z.to_nat (Z.of_nat (order T) - 1)) with (order T - 1)%nat by lia.
    apply list_lookup_total_correct.
    destruct (order T - 1 - j <? order T - 1)%nat eqn:E.
    + apply Nat.ltb_lt in E. rewrite list_lookup_insert_ne by lia.
      apply HH. lia.
    + apply Nat.ltb_ge in E.
      replace (order T - 1 - j)%nat with (order T - 1)%nat by lia.
      apply list_lookup_insert_eq. lia.
  - intros i Hi. rewrite Adams_Steps_history by lia.
    rewrite decide_False by lia. rewrite decide_True by lia. apply HH. lia.
  - rewrite Adams_Steps_history by lia. rewrite decide_True by lia. reflexivity.
Qed.

Lemma bootstrap_then_step_witness :
  In adams_12 supplied /\
  length (replicate 12 0%float) = order adams_12 /\
  length (replicate 12 5%float) = order adams_12 /\
  Adams_12_Steps (fun x y => (x + y)%float) 1 1.1 0.1
    (Adams_12_Build_History (fun x y => (x + y)%float) (replicate 12 5%float)
       (replicate 12 1%float) 0 0.1).1 1e-12 10 =
  Adams_12_Steps (fun x y => (x + y)%float) 1 1.1 0.1
    (Adams_12_Build_History (fun x y => (x + y)%float) (replicate 12 0%float)
       (replicate 12 1%float) 0 0.1).1 1e-12 10.
Proof.
  assert (HT : In adams_12 supplied) by (left; reflexivity).
  assert (HB : length (replicate 12 0%float) = order adams_12) by reflexivity.
  assert (HB' : length (replicate 12 5%float) = order adams_12) by reflexivity.
  split; [exact HT|]. split; [exact HB|]. split; [exact HB'|].
  exact (proj1
    (bootstrap_then_step adams_12 (fun x y => (x + y)%float)
       (replicate 12 0%float) (replicate 12 5%float) (replicate 12 1%float)
       0 0.1 1 1.1 0.1 1e-12 10 HT HB HB')).
Defined.

(** ** The corrector's weights *)

(** One round under a tolerance of 0.0: the estimate the corrector leaves
    is one application of its formula to the starting estimate. *)
Lemma corrector_single_round (T : table) (f : double -> double -> double)
    (y0 y1 x h : double) (f_history : list double) :
  c_y1 (Adams_Moulton_Steps T f y0 y1 x h f_history 0 1) =
  picard T f y0 x h (moulton_sum T f_history) y1.
Proof.
  rewrite corrector_estimate.
  assert (Hnever : never_within T f y0 x h (moulton_sum T f_history) 0 y1
                     (Z.to_nat 1))
    by (intros j _; apply hasConverged_zero_tolerance).
  rewrite (proj2 (corrector_ret_failure T f y0 y1 x h f_history 0 1 Hnever)).
  reflexivity.
Qed.

(** In each of the three tables [moulton] has as many entries as
    [bashforth], so the corrector's reads [moulton[0 .. k-1]] stay inside
    the table; its integer literals add up to the denominator of [divisor]
    as well; its first weight is the opposite of the last [bashforth]
    weight; and the table holds these literals rounded to double.  With
    [f = 2.0] on a history of 2.0, [h = 0.1] and [y[0] = 1.0], one round of
    the corrector of every order, from any starting estimate [y[1]],
    leaves [y[0] + h*2.0] within 1e-9 in [y[1]]. *)
Theorem moulton_weights_consistent :
  Forall (fun T => length (moulton T) = length (bashforth T)) supplied /\
  (Zsum moulton_12_literals = divisor_12_denominator /\
   Zsum moulton_16_literals = divisor_16_denominator /\
   Zsum moulton_20_literals = divisor_20_denominator) /\
  (head moulton_12_literals = option_map Z.opp (last bashforth_12_literals) /\
   head moulton_16_literals = option_map Z.opp (last bashforth_16_literals) /\
   head moulton_20_literals = option_map Z.opp (last bashforth_20_literals)) /\
  (moulton adams_12 = map double_of_Z moulton_12_literals /\
   moulton adams_16 = map double_of_Z moulton_16_literals /\
   moulton adams_20 = map double_of_Z moulton_20_literals) /\
  Forall (fun T => forall y1 : double,
    (abs (c_y1 (Adams_Moulton_Steps T (fun _ _ => 2.0%float) 1.0 y1 0.1 0.1
                  (constant_history T 2.0) 0 1)
          - (1.0 + 0.1 * 2.0)) <? 1e-9)%float = true) supplied.
Proof.
  split; [repeat constructor|].
  split; [repeat split; vm_compute; reflexivity|].
  split; [repeat split; vm_compute; reflexivity|].
  split; [repeat split; vm_compute; reflexivity|].
  repeat constructor; intros y1; rewrite corrector_single_round;
    vm_compute; reflexivity.
Qed.

(** ** The zero problem *)

Lemma SFmul_finite_zero (p : spec_float) :
  SFfinite p = true ->
  exists s, SFmul prec emax p (S754_zero false) = S754_zero s.
Proof.
  destruct p as [s|s| |s m e]; try discriminate; intros _; eexists; reflexivity.
Qed.

(** Adding a zero gives back the same number, up to the sign of a zero. *)
Lemma add_zero_keeps (y z : double) (s : bool) :
  is_nan y = false -> Prim2SF z = S754_zero s ->
  (y + z =? y)%float = true /\ (is_zero y = false -> (y + z)%float = y).
Proof.
  intros Hy Hz.
  assert (Prim2SF y <> S754_nan) as Hy' by (rewrite <- is_nan_spec; congruence).
  unfold is_zero.
  rewrite !FloatAxioms.eqb_spec, FloatAxioms.add_spec, Hz.
  change (Prim2SF zero) with (S754_zero false).
  unfold SFeqb.
  destruct (Prim2SF y) as [sy|sy| |sy m e] eqn:E; try congruence.
  - split; [destruct sy, s; reflexivity | discriminate].
  - split; [destruct sy; reflexivity|].
    intros _. apply Prim2SF_inj. rewrite FloatAxioms.add_spec, Hz, E. reflexivity.
  - cbn [SFadd]. rewrite SFcompare_refl by discriminate.
    split; [reflexivity|].
    intros _. apply Prim2SF_inj. rewrite FloatAxioms.add_spec, Hz, E. reflexivity.
Qed.

Lemma zero_tables (T : table) :
  In T supplied ->
  bashforth_sum T (constant_history T 0) = 0%float /\
  moulton_sum T (constant_history T 0) = 0%float /\
  (moulton T !!! 0%nat * 0 + 0)%float = 0%float /\
  shift_loop (Z.to_nat (STEPS T - 1 - 0)) 0
    (<[Z.to_nat (STEPS T - 1) := 0%float]> (constant_history T 0)) =
  constant_history T 0.
Proof.
  intros [<-|[<-|[<-|[]]]]; repeat split; vm_compute; reflexivity.
Qed.

(** With the slope [f = 0] and a history of zeros, a step of any order
    leaves the solution where it was: the predictor's value and the
    corrected [y[1]] are both [y[0] + (h*divisor)*0.0], which compares
    equal to [y[0]] and is the very double [y[0]] unless [y[0]] is a zero;
    the history stays zero.  This holds for every tolerance and budget, as
    long as [y[0]] is a number and [h*divisor] is finite. *)
Theorem zero_problem_fixed (T : table) (y0 x0 h tolerance : double) (N : Z) :
  In T supplied -> is_nan y0 = false -> is_finite (h * divisor T) = true ->
  let s := Adams_Steps T (fun _ _ => 0%float) y0 x0 h (constant_history T 0)
             tolerance N in
  (s_y_bashforth s =? y0)%float = true /\
  s_y1 s = s_y_bashforth s /\
  (is_zero y0 = false -> s_y1 s = y0) /\
  s_f_history s = constant_history T 0.
Proof.
  intros HT Hy Hp. cbv zeta.
  destruct (zero_tables T HT) as (Hb & Hm & Hm0 & Hshift).
  rewrite is_finite_spec in Hp.
  destruct (SFmul_finite_zero _ Hp) as [s Hs].
  assert (Hz : Prim2SF (h * divisor T * 0)%float = S754_zero s)
    by (rewrite FloatAxioms.mul_spec, Prim2SF_zero; exact Hs).
  destruct (add_zero_keeps y0 _ s Hy Hz) as [Heq Hsame].
  assert (Hyb : s_y_bashforth (Adams_Steps T (fun _ _ => 0%float) y0 x0 h
                   (constant_history T 0) tolerance N) =
                (y0 + h * divisor T * 0)%float).
  { cbn [Adams_Steps s_y_bashforth]. rewrite predictor_weighted_sum_aux.
    replace (<[Z.to_nat (STEPS T - 1):=0%float]> (constant_history T 0))
      with (constant_history T 0); [rewrite Hb; reflexivity|].
    symmetry. apply list_insert_id'. intros _.
    unfold constant_history in *. apply lookup_replicate_2.
    rewrite STEPS_order.
    destruct (supplied_order T HT) as [E|[E|E]]; rewrite E; lia. }
  assert (Hy1 : s_y1 (Adams_Steps T (fun _ _ => 0%float) y0 x0 h
                  (constant_history T 0) tolerance N) =
                (y0 + h * divisor T * 0)%float).
  { cbn [Adams_Steps s_y1]. rewrite corrector_estimate, Hshift, Hm.
    generalize (c_rounds (Adams_Moulton_Steps T (fun _ _ => 0%float) y0
      (Adams_Bashforth_Steps T y0 h
         (<[Z.to_nat (STEPS T - 1):=0%float]> (constant_history T 0)))
      (x0 + h)%float h (constant_history T 0) tolerance N)).
    intros n. destruct n as [|n]; unfold estimate.
    - exact Hyb.
    - rewrite Nat.iter_succ. unfold picard at 1. rewrite Hm0. reflexivity. }
  rewrite Hy1, Hyb. split; [exact Heq|]. split; [reflexivity|].
  split; [exact Hsame|].
  cbn [Adams_Steps s_f_history]. exact Hshift.
Qed.

Lemma zero_problem_fixed_witness :
  In adams_20 supplied /\ is_nan 3.5 = false /\
  is_finite (0.25 * divisor adams_20) = true /\
  s_y1 (Adams_20_Steps (fun _ _ => 0%float) 3.5 0 0.25
          (constant_history adams_20 0) 1e-9 5) = 3.5%float.
Proof.
  assert (HT : In adams_20 supplied) by (right; right; left; reflexivity).
  assert (Hy : is_nan 3.5 = false) by (vm_compute; reflexivity).
  assert (Hp : is_finite (0.25 * divisor adams_20) = true)
    by (vm_compute; reflexivity).
  split; [exact HT|]. split; [exact Hy|]. split; [exact Hp|].
  refine (proj1 (proj2 (proj2
    (zero_problem_fixed adams_20 3.5 0 0.25 1e-9 5 HT Hy Hp))) _).
  vm_compute. reflexivity.
Defined.
